(** * SignApp: the upload / processing client of [services/ApiService.ts]

    A shallow embedding of the class [ApiService] (upload operation, health
    probe, live status channel, processing orchestrator) and of
    [config/config.ts], with the properties of the specification stated
    over it; and of the code around them: the constructor of the service,
    the helpers of the configuration, [App.processVideo] with the
    classification of [ResultSlide], and the log store of the debug panel.

    Conventions of the embedding.
    - An [Error] is represented by its [message], the only field the code
      reads outside of log statements.
    - [DebugLogger] calls only write to the console and are left out; what
      is kept of them is the evaluation of a template literal among their
      arguments when it can throw.
    - Values produced by [JSON.parse] / [response.json()] are [jsonValue]s;
      a number is represented by the text that [String()] gives for it,
      which is all the code uses of a number.
    - Asynchronous code is modelled by explicit state passing: every
      handler the code registers (promise continuation, timer callback,
      socket event handler) is a function on the state of the closures
      that the handler captures, and a run is a list of events applied in
      order. *)

From Stdlib Require Import ZArith List String Bool Lia QArith Qminmax DecimalString Ascii.
Import ListNotations.
Set Warnings "-register-all".
Open Scope string_scope.
Open Scope Z_scope.

(** ** JavaScript values and strings *)

Inductive jsonValue : Type :=
| JNull
| JBool (b : bool)
| JNum (shown : string)
| JStr (s : string)
| JArr (items : list jsonValue)
| JObj (members : list (string * jsonValue)).

(** Result of reading a property: [undefined] or a value. *)
Inductive jsval : Type :=
| Undefined
| Value (j : jsonValue).

(** Own property of a parsed object; with duplicate keys the last one wins,
    as in [JSON.parse]. *)
Fixpoint member (k : string) (ms : list (string * jsonValue)) : jsval :=
  match ms with
  | [] => Undefined
  | (k', v) :: rest =>
      match member k rest with
      | Value w => Value w
      | Undefined => if (k' =? k)%string then Value v else Undefined
      end
  end.

(** [v.k] for the property names the code reads ([status], [video_id]):
    a [TypeError] ([None]) on [null], [undefined] on every other
    non-object. *)
Definition get (v : jsonValue) (k : string) : option jsval :=
  match v with
  | JNull => None
  | JObj ms => Some (member k ms)
  | _ => Some Undefined
  end.

Definition string_of_Z (n : Z) : string := NilZero.string_of_int (Z.to_int n).

(** [String(j)], as used by template literals; [None] is a [TypeError].
    A parsed object has no callable [toString] of its own: without an own
    [toString] member it is printed by [Object.prototype.toString], with
    one the conversion to a primitive fails. An array is printed by
    [Array.prototype.join], which prints [null] as the empty text. *)
Fixpoint ToString (j : jsonValue) : option string :=
  match j with
  | JNull => Some "null"
  | JBool true => Some "true"
  | JBool false => Some "false"
  | JNum shown => Some shown
  | JStr s => Some s
  | JArr items =>
      (fix join (l : list jsonValue) : option string :=
         match l with
         | [] => Some ""
         | x :: rest =>
             match (match x with JNull => Some "" | _ => ToString x end) with
             | None => None
             | Some sx =>
                 match rest with
                 | [] => Some sx
                 | _ :: _ =>
                     match join rest with
                     | None => None
                     | Some sr => Some (sx ++ "," ++ sr)
                     end
                 end
             end
         end) items
  | JObj ms =>
      match member "toString" ms with
      | Undefined => Some "[object Object]"
      | Value _ => None
      end
  end.

(** [`${v}`]; [None] is a [TypeError]. *)
Definition template (v : jsval) : option string :=
  match v with
  | Undefined => Some "undefined"
  | Value j => ToString j
  end.

(** Message of the [TypeError] of a conversion to a primitive that fails
    (the wording is the engine's). *)
Definition typeError_primitive : string := "Cannot convert object to primitive value".

(** [v === s] for a string literal [s]. *)
Definition is_string (v : jsval) (s : string) : bool :=
  match v with
  | Value (JStr t) => (t =? s)%string
  | _ => false
  end.

(** [hay.includes(needle)]. *)
Fixpoint includes (hay needle : string) : bool :=
  prefix needle hay ||
  match hay with
  | EmptyString => false
  | String _ rest => includes rest needle
  end.

(** [m || d] on strings: the empty string is falsy. *)
Definition or_default (m d : string) : string :=
  match m with
  | EmptyString => d
  | _ => m
  end.

(** ** Promises and [fetch] *)

Inductive settlement (A : Type) : Type :=
| Fulfilled (a : A)
| Rejected (message : string).
Arguments Fulfilled {A} a.
Arguments Rejected {A} message.

(** A response as the code reads it: [status], [statusText], the body as
    [text()] returns it, and the outcome of [json()] ([inl m]: it rejects
    with an error of message [m]). *)
Record Response : Type := mkResponse {
  status : Z;
  statusText : string;
  text : string;
  json : string + jsonValue
}.

Definition ok (r : Response) : bool := (200 <=? status r) && (status r <=? 299).

Inductive fetchOutcome : Type :=
| FetchRejects (message : string)
| FetchResolves (r : Response).

(** ** [uploadVideo] *)

Module Upload.

(** Message of the error thrown for a response that is not [ok]. *)
Definition httpError (response : Response) : string :=
  let errorText := text response in
  "Upload failed: " ++ string_of_Z (status response) ++ " "
    ++ statusText response ++ " - " ++ errorText.

(** The [try] block; [Rejected m] is an exception of message [m] leaving it. *)
Definition try_block (f : fetchOutcome) : settlement jsonValue :=
  match f with
  | FetchRejects m => Rejected m
  | FetchResolves response =>
      if negb (ok response) then Rejected (httpError response)
      else
        match json response with
        | inl m => Rejected m
        | inr result => Fulfilled result
        end
  end.

(** The [catch] block: the message of the error it throws. *)
Definition catch_block (message : string) : string :=
  if includes message "Network request failed" then
    "Cannot connect to server. Please check your internet connection and server address."
  else if includes message "timeout" then
    "Upload timed out. Please try again with a smaller video file."
  else
    "Upload failed: " ++ message.

End Upload.

Definition uploadVideo (f : fetchOutcome) : settlement jsonValue :=
  match Upload.try_block f with
  | Fulfilled result => Fulfilled result
  | Rejected m => Rejected (Upload.catch_block m)
  end.

(** ** [checkServerHealth] *)

Record HealthResult : Type := mkHealth {
  isHealthy : bool;
  error : option string
}.

Module Health.

Definition try_block (f : fetchOutcome) : settlement HealthResult :=
  match f with
  | FetchRejects m => Rejected m
  | FetchResolves response =>
      if ok response then
        match json response with
        | inl m => Rejected m
        | inr _ => Fulfilled (mkHealth true None)
        end
      else
        Fulfilled (mkHealth false
          (Some ("Server returned " ++ string_of_Z (status response) ++ ": "
                   ++ statusText response)))
  end.

Definition catch_block (message : string) : HealthResult :=
  mkHealth false (Some (or_default message "Connection failed")).

End Health.

Definition checkServerHealth (f : fetchOutcome) : settlement HealthResult :=
  match Health.try_block f with
  | Fulfilled h => Fulfilled h
  | Rejected m => Fulfilled (Health.catch_block m)
  end.

(** ** [connectToProcessing]: the live status channel *)

(** How a call returns: normally, or by throwing. *)
Inductive completion : Type :=
| Normal
| Throws.

(** What the channel does to its platform and to its caller. *)
Inductive action : Type :=
| NewWebSocket (url : string)
| StatusUpdate (data : jsonValue)
| ErrorCallback (message : string)
| Close (code : Z) (reason : string)
| SetTimeout (delay : Z).

(** The variables captured by the closures of one [connectToProcessing]
    call, the [setTimeout(connect, _)] timers that are scheduled and have
    not run yet, and the history of the channel's actions (oldest first).
    [ws] is [None] for [null], and otherwise numbers the socket object. *)
Record ChannelSession : Type := mkSession {
  wsUrl : string;
  ws : option nat;
  isConnected : bool;
  reconnectAttempts : Z;
  messageCount : Z;
  timers : list Z;
  actions : list action
}.

Definition maxReconnectAttempts : Z := 3.

Definition set_ws (v : option nat) (ch : ChannelSession) : ChannelSession :=
  mkSession (wsUrl ch) v (isConnected ch) (reconnectAttempts ch)
            (messageCount ch) (timers ch) (actions ch).
Definition set_isConnected (v : bool) (ch : ChannelSession) : ChannelSession :=
  mkSession (wsUrl ch) (ws ch) v (reconnectAttempts ch)
            (messageCount ch) (timers ch) (actions ch).
Definition set_reconnectAttempts (v : Z) (ch : ChannelSession) : ChannelSession :=
  mkSession (wsUrl ch) (ws ch) (isConnected ch) v
            (messageCount ch) (timers ch) (actions ch).
Definition set_messageCount (v : Z) (ch : ChannelSession) : ChannelSession :=
  mkSession (wsUrl ch) (ws ch) (isConnected ch) (reconnectAttempts ch)
            v (timers ch) (actions ch).
Definition set_timers (v : list Z) (ch : ChannelSession) : ChannelSession :=
  mkSession (wsUrl ch) (ws ch) (isConnected ch) (reconnectAttempts ch)
            (messageCount ch) v (actions ch).
Definition act (a : action) (ch : ChannelSession) : ChannelSession :=
  mkSession (wsUrl ch) (ws ch) (isConnected ch) (reconnectAttempts ch)
            (messageCount ch) (timers ch) (actions ch ++ [a])%list.

Fixpoint remove_nth {A : Type} (i : nat) (l : list A) : list A :=
  match l, i with
  | [], _ => []
  | _ :: rest, O => rest
  | x :: rest, S j => x :: remove_nth j rest
  end.

(** Events delivered to the handlers of a channel: the four socket events
    and the expiry of the [i]-th pending reconnection timer, which carries
    how the [new WebSocket] of the [connect] it runs completes. *)
Inductive wsEvent : Type :=
| OnOpen
| OnMessage (data : string + jsonValue)
| OnError
| OnClose (code : Z)
| OnTimer (i : nat) (construct : completion).

Section Channel.

Context {Caller : Type}.
Variable onStatusUpdate : jsonValue -> Caller -> Caller * completion.
Variable onError : string -> Caller -> Caller.

Definition callError (m : string) (st : Caller * ChannelSession)
  : Caller * ChannelSession :=
  (onError m (fst st), act (ErrorCallback m) (snd st)).

Definition connect (construct : completion) (st : Caller * ChannelSession)
  : Caller * ChannelSession :=
  match construct with
  | Normal =>
      let ch := snd st in
      let fresh := match ws ch with None => O | Some n => S n end in
      (fst st, act (NewWebSocket (wsUrl ch)) (set_ws (Some fresh) ch))
  | Throws => callError "Failed to establish WebSocket connection" st
  end.

Definition onopen (st : Caller * ChannelSession) : Caller * ChannelSession :=
  (fst st, set_reconnectAttempts 0 (set_isConnected true (snd st))).

Definition terminal (s : jsval) : bool :=
  is_string s "done" || is_string s "timeout" || is_string s "error".

Definition onmessage (data : string + jsonValue) (st : Caller * ChannelSession)
  : Caller * ChannelSession :=
  let ch := set_messageCount (messageCount (snd st) + 1) (snd st) in
  match data with
  | inl _ => callError "Failed to parse server response" (fst st, ch)
  | inr data =>
      let (c, k) := onStatusUpdate data (fst st) in
      let ch := act (StatusUpdate data) ch in
      match k with
      | Throws => callError "Failed to parse server response" (c, ch)
      | Normal =>
          match get data "status" with
          | None => callError "Failed to parse server response" (c, ch)
          | Some s =>
              if terminal s then
                match ws ch with
                | Some _ => (c, act (Close 1000 "Processing complete") ch)
                | None => (c, ch)
                end
              else (c, ch)
          end
      end
  end.

Definition onerror (st : Caller * ChannelSession) : Caller * ChannelSession :=
  callError "WebSocket connection error" st.

Definition onclose (code : Z) (st : Caller * ChannelSession)
  : Caller * ChannelSession :=
  let ch := set_isConnected false (snd st) in
  if negb (code =? 1000) && (reconnectAttempts ch <? maxReconnectAttempts) then
    let ch := set_reconnectAttempts (reconnectAttempts ch + 1) ch in
    let retryDelay := 2000 * reconnectAttempts ch in
    (fst st, act (SetTimeout retryDelay) (set_timers (timers ch ++ [retryDelay])%list ch))
  else if negb (code =? 1000) then
    callError "WebSocket connection failed after multiple attempts" (fst st, ch)
  else (fst st, ch).

(** Expiry of the [i]-th pending [setTimeout(connect, _)]. *)
Definition ontimer (i : nat) (construct : completion) (st : Caller * ChannelSession)
  : Caller * ChannelSession :=
  match nth_error (timers (snd st)) i with
  | None => st
  | Some _ =>
      connect construct (fst st, set_timers (remove_nth i (timers (snd st))) (snd st))
  end.

(** Socket events reach a handler only once a socket exists. *)
Definition handle (e : wsEvent) (st : Caller * ChannelSession)
  : Caller * ChannelSession :=
  match e with
  | OnTimer i construct => ontimer i construct st
  | _ =>
      match ws (snd st) with
      | None => st
      | Some _ =>
          match e with
          | OnOpen => onopen st
          | OnMessage data => onmessage data st
          | OnError => onerror st
          | OnClose code => onclose code st
          | OnTimer _ _ => st
          end
      end
  end.

(** The body of [connectToProcessing] up to its [return]. *)
Definition connectToProcessing (url : string) (construct : completion) (c : Caller)
  : Caller * ChannelSession :=
  connect construct (c, mkSession url None false 0 0 [] []).

End Channel.

(** The cleanup function that [connectToProcessing] returns. *)
Definition cleanup (ch : ChannelSession) : ChannelSession :=
  match ws ch with
  | Some _ =>
      if isConnected ch then act (Close 1000 "Manual disconnect") ch else ch
  | None => ch
  end.

(** ** [processVideo]: the processing orchestrator *)

(** A timer made by [setTimeout]. *)
Inductive timerState : Type :=
| Pending
| Fired
| Cleared.

(** Calls of the two caller-supplied callbacks and of the [resolve] and
    [reject] functions of the returned promise. *)
Inductive call : Type :=
| StatusText (s : string)
| Progress (p : Q)
| Resolve (status : jsonValue)
| Reject (message : string).

(** The variables captured by the closures of one [processVideo] call.
    [timeoutId] is the overall timer, [uploadTimer] the timer of the race of
    step 1, [scheduled] the delays given to [setTimeout] in order,
    [awaiting] tells that the executor is suspended at
    [await Promise.race], [wsCleanup] is [false] for [null], [promise] is
    the state of the returned promise ([None]: pending) and [calls] the
    history of calls, oldest first. *)
Record Workflow : Type := mkWorkflow {
  timeoutId : timerState;
  uploadTimer : timerState;
  scheduled : list Z;
  awaiting : bool;
  wsCleanup : bool;
  promise : option (settlement jsonValue);
  calls : list call
}.

Definition set_timeoutId (v : timerState) (w : Workflow) : Workflow :=
  mkWorkflow v (uploadTimer w) (scheduled w) (awaiting w) (wsCleanup w)
             (promise w) (calls w).
Definition set_uploadTimer (v : timerState) (w : Workflow) : Workflow :=
  mkWorkflow (timeoutId w) v (scheduled w) (awaiting w) (wsCleanup w)
             (promise w) (calls w).
Definition set_awaiting (v : bool) (w : Workflow) : Workflow :=
  mkWorkflow (timeoutId w) (uploadTimer w) (scheduled w) v (wsCleanup w)
             (promise w) (calls w).
Definition set_wsCleanup (v : bool) (w : Workflow) : Workflow :=
  mkWorkflow (timeoutId w) (uploadTimer w) (scheduled w) (awaiting w) v
             (promise w) (calls w).
Definition set_promise (v : option (settlement jsonValue)) (w : Workflow) : Workflow :=
  mkWorkflow (timeoutId w) (uploadTimer w) (scheduled w) (awaiting w) (wsCleanup w)
             v (calls w).
Definition called (c : call) (w : Workflow) : Workflow :=
  mkWorkflow (timeoutId w) (uploadTimer w) (scheduled w) (awaiting w) (wsCleanup w)
             (promise w) (calls w ++ [c])%list.

Definition onStatusUpdate (s : string) (w : Workflow) : Workflow := called (StatusText s) w.
Definition onProgress (p : Q) (w : Workflow) : Workflow := called (Progress p) w.

(** A promise keeps its first settlement; later calls of [resolve] and
    [reject] have no effect on it. *)
Definition settle (s : settlement jsonValue) (w : Workflow) : Workflow :=
  match promise w with
  | None => set_promise (Some s) w
  | Some _ => w
  end.
Definition resolve (status : jsonValue) (w : Workflow) : Workflow :=
  settle (Fulfilled status) (called (Resolve status) w).
Definition reject (message : string) (w : Workflow) : Workflow :=
  settle (Rejected message) (called (Reject message) w).

(** [clearTimeout(timeoutId)]: cancels the timer if it has not run. *)
Definition clearTimeout (w : Workflow) : Workflow :=
  match timeoutId w with
  | Pending => set_timeoutId Cleared w
  | _ => w
  end.

(** [setTimeout(_, ms)] of the executor: both of its timers start pending. *)
Definition setTimeout (ms : Z) (w : Workflow) : Workflow :=
  mkWorkflow (timeoutId w) (uploadTimer w) (scheduled w ++ [ms])%list (awaiting w)
             (wsCleanup w) (promise w) (calls w).

Definition OVERALL_TIMEOUT : Z := 180000.
Definition UPLOAD_RACE_TIMEOUT : Z := 120000.

(** Message of the [TypeError] of reading [.status] of [null] (the wording
    is the engine's). *)
Definition typeError_status : string := "Cannot read property 'status' of null".

(** The status callback given to the channel; [rnd] is what
    [Math.random()] returns if it is called. *)
Definition statusCallback (rnd : Q) (status : jsonValue) (w : Workflow)
  : Workflow * completion :=
  match get status "status" with
  | None => (w, Throws)
  | Some s =>
      if is_string s "processing" then
        let currentProgress := Qmin 90 (40 + rnd * 30) in
        (onStatusUpdate "Processing landmarks and analyzing gestures..."
           (onProgress currentProgress w), Normal)
      else if is_string s "done" then
        (resolve status
           (onStatusUpdate "Analysis complete!" (onProgress 100 (clearTimeout w))),
         Normal)
      else if is_string s "timeout" then
        (reject "Server processing timed out"
           (onStatusUpdate "Processing timeout" (onProgress 100 (clearTimeout w))),
         Normal)
      else if is_string s "error" then
        (reject "Server processing error"
           (onStatusUpdate "Processing failed" (onProgress 100 (clearTimeout w))),
         Normal)
      else (w, Normal)
  end.

(** The error callback given to the channel. *)
Definition errorCallback (message : string) (w : Workflow) : Workflow :=
  reject message (clearTimeout w).

(** One [processVideo] call: its closure variables and, once
    [connectToProcessing] has run, the channel session. *)
Definition State : Type := (Workflow * option ChannelSession)%type.

Inductive event : Type :=
| UploadSettles (f : fetchOutcome) (construct : completion)
| UploadTimerFires
| DeadlineFires
| Socket (e : wsEvent) (rnd : Q).

Section Orchestrator.

(** [this.wsUrl] *)
Variable this_wsUrl : string.

(** The executor up to [await Promise.race]. *)
Definition processVideo : State :=
  let w := mkWorkflow Pending Pending [] false false None [] in
  let w := setTimeout OVERALL_TIMEOUT w in
  let w := onStatusUpdate "Uploading video..." w in
  let w := onProgress 10 w in
  let w := setTimeout UPLOAD_RACE_TIMEOUT w in
  (set_awaiting true w, None).

(** The [catch] block of the executor. *)
Definition catch_block (message : string) (st : State) : State :=
  let w := clearTimeout (fst st) in
  let ch := if wsCleanup w then option_map cleanup (snd st) else snd st in
  (reject message w, ch).

(** The executor after [await Promise.race] yields [uploadResult]. The log
    statement that closes step 1 prints [video_id]: a [video_id] that
    cannot be printed throws there, before the progress 30 is reported. *)
Definition resume (uploadResult : jsonValue) (construct : completion) (st : State)
  : State :=
  match get uploadResult "status" with
  | None => catch_block typeError_status st
  | Some s =>
      if negb (is_string s "received") then
        match template s with
        | None => catch_block typeError_primitive st
        | Some shown => catch_block ("Upload failed with status: " ++ shown) st
        end
      else
        match get uploadResult "video_id" with
        | None => catch_block typeError_status st
        | Some video_id =>
            match template video_id with
            | None => catch_block typeError_primitive st
            | Some videoId =>
                let w := onStatusUpdate "Video uploaded, starting analysis..."
                           (onProgress 30 (fst st)) in
                let url := this_wsUrl ++ "/ws/" ++ videoId in
                let (w', ch) := connectToProcessing errorCallback url construct w in
                (set_wsCleanup true w', Some ch)
            end
        end
  end.

Definition step (e : event) (st : State) : State :=
  match e with
  | UploadSettles f construct =>
      if awaiting (fst st) then
        let st := (set_awaiting false (fst st), snd st) in
        match uploadVideo f with
        | Fulfilled uploadResult => resume uploadResult construct st
        | Rejected m => catch_block m st
        end
      else st
  | UploadTimerFires =>
      match uploadTimer (fst st) with
      | Pending =>
          let st := (set_uploadTimer Fired (fst st), snd st) in
          if awaiting (fst st) then
            catch_block "Upload timeout after 2 minutes"
                        (set_awaiting false (fst st), snd st)
          else st
      | _ => st
      end
  | DeadlineFires =>
      match timeoutId (fst st) with
      | Pending =>
          (reject "Overall processing timeout (3 minutes)"
                  (set_timeoutId Fired (fst st)), snd st)
      | _ => st
      end
  | Socket e rnd =>
      match snd st with
      | None => st
      | Some ch =>
          let (w, ch') := handle (statusCallback rnd) errorCallback e (fst st, ch) in
          (w, Some ch')
      end
  end.

Definition run (evs : list event) (st : State) : State :=
  fold_left (fun s e => step e s) evs st.

End Orchestrator.

(** ** [config/config.ts] *)

Record AppConfig : Type := mkConfig {
  API_BASE_URL : string;
  WS_BASE_URL : string;
  UPLOAD_TIMEOUT : Z;
  PROCESSING_TIMEOUT : Z;
  MAX_RETRY_ATTEMPTS : Z
}.

Definition DEV_CONFIG : AppConfig :=
  mkConfig "https://boulevard-thorough-lives-cuts.trycloudflare.com"
           "wss://boulevard-thorough-lives-cuts.trycloudflare.com"
           60000 180000 3.

Definition PROD_CONFIG : AppConfig :=
  mkConfig "http://YOUR_PRODUCTION_SERVER:8000"
           "ws://YOUR_PRODUCTION_SERVER:8000"
           60000 180000 5.

Definition CONFIG (isDevelopment : bool) : AppConfig :=
  if isDevelopment then DEV_CONFIG else PROD_CONFIG.

(** Helper functions of [config/config.ts]. *)
Definition getApiUrl (isDevelopment : bool) (endpoint : string) : string :=
  API_BASE_URL (CONFIG isDevelopment)
    ++ (if prefix "/" endpoint then "" else "/") ++ endpoint.

Definition getWsUrl (isDevelopment : bool) (endpoint : string) : string :=
  WS_BASE_URL (CONFIG isDevelopment)
    ++ (if prefix "/" endpoint then "" else "/") ++ endpoint.

(** ** The constructor of [ApiService] *)

Fixpoint drop (n : nat) (s : string) : string :=
  match n, s with
  | O, _ => s
  | S _, EmptyString => EmptyString
  | S m, String _ rest => drop m rest
  end.

(** [s.replace(pat, rep)] for a string pattern: the first occurrence of
    [pat] is replaced ([rep] holds no [$]). *)
Fixpoint replace (pat rep s : string) : string :=
  if prefix pat s then rep ++ drop (String.length pat) s
  else
    match s with
    | EmptyString => EmptyString
    | String c rest => String c (replace pat rep rest)
    end.

Module Service.

Record ApiService : Type := mk {
  baseUrl : string;
  wsUrl : string
}.

Definition DEFAULT_BASE_URL : string :=
  "https://boulevard-thorough-lives-cuts.trycloudflare.com".

(** [new ApiService(baseUrl)]; [None] is an omitted argument. *)
Definition constructor (baseUrl : option string) : ApiService :=
  let base :=
    match baseUrl with
    | None => DEFAULT_BASE_URL
    | Some b => or_default b DEFAULT_BASE_URL
    end in
  mk base (replace "http://" "ws://" (replace "https://" "wss://" base)).

End Service.

(** ** [App]: the caller of the service *)

(** Truthiness of a value. *)
Definition truthy (v : jsval) : bool :=
  match v with
  | Undefined => false
  | Value JNull => false
  | Value (JBool b) => b
  | Value (JNum shown) => negb (shown =? "0")%string
  | Value (JStr s) => negb (s =? "")%string
  | Value (JArr _) => true
  | Value (JObj _) => true
  end.

(** [v?.k] and [v.k] on the result of a property read; the names read
    here ([result], [prediction], [class_name], [error]) are, like
    [status], own properties of parsed objects only. *)
Definition optional_get (v : jsval) (k : string) : jsval :=
  match v with
  | Undefined => Undefined
  | Value j =>
      match get j k with
      | None => Undefined
      | Some x => x
      end
  end.

Definition get_of (v : jsval) (k : string) : option jsval :=
  match v with
  | Undefined => None
  | Value j => get j k
  end.

(** Message of the [TypeError] of reading [.k] of [null] (the wording is
    the engine's). *)
Definition typeError (k : string) : string :=
  "Cannot read property '" ++ k ++ "' of null".

Module App.

(** The values of the five [useState] hooks; [result] is [JNull] for
    [null]. The pager, which follows [currentSlide], is left out. *)
Record State : Type := mk {
  currentSlide : Z;
  selectedVideo : option string;
  uploadProgress : Q;
  isUploading : bool;
  result : jsonValue
}.

Definition setCurrentSlide (v : Z) (s : State) : State :=
  mk v (selectedVideo s) (uploadProgress s) (isUploading s) (result s).
Definition setSelectedVideo (v : option string) (s : State) : State :=
  mk (currentSlide s) v (uploadProgress s) (isUploading s) (result s).
Definition setUploadProgress (v : Q) (s : State) : State :=
  mk (currentSlide s) (selectedVideo s) v (isUploading s) (result s).
Definition setIsUploading (v : bool) (s : State) : State :=
  mk (currentSlide s) (selectedVideo s) (uploadProgress s) v (result s).
Definition setResult (v : jsonValue) (s : State) : State :=
  mk (currentSlide s) (selectedVideo s) (uploadProgress s) (isUploading s) v.

Definition goToSlide (index : Z) (s : State) : State := setCurrentSlide index s.

Definition resetToHome (s : State) : State :=
  goToSlide 0 (setResult JNull (setIsUploading false
    (setUploadProgress 0 (setSelectedVideo None s)))).

Definition tryAnotherVideo (s : State) : State :=
  goToSlide 1 (setResult JNull (setIsUploading false
    (setUploadProgress 0 (setSelectedVideo None s)))).

(** The part of [processVideo] that handles [finalResult]: what it gives
    to [setResult], or the message of the error it throws. *)
Definition handleResult (finalResult : jsonValue) : settlement jsonValue :=
  match get finalResult "result" with
  | None => Rejected (typeError "result")
  | Some r =>
      if truthy r then
        let class_name := optional_get (optional_get r "prediction") "class_name" in
        if is_string (optional_get r "status") "completed" && truthy class_name then
          match class_name with
          | Value c => Fulfilled c
          | Undefined => Fulfilled JNull
          end
        else if is_string (optional_get r "status") "error" then
          let e := optional_get r "error" in
          match (if truthy e then template e else Some "Unknown error") with
          | None => Rejected typeError_primitive
          | Some shown => Fulfilled (JStr ("Processing Error: " ++ shown))
          end
        else Fulfilled (JStr "No gesture recognized")
      else Fulfilled (JStr "Processing incomplete")
  end.

(** The [catch] block of [processVideo]. *)
Definition catch_block (message : string) (s : State) : State :=
  goToSlide 3 (setResult (JStr ("Connection Error: " ++ message))
    (setUploadProgress 0 (setIsUploading false s))).

(** [processVideo(videoUri)]: [health] is the outcome of the request of
    the health probe; when the probe is healthy, [progress] lists the
    values that [apiService.processVideo] gives to the progress callback
    before its promise settles and [workflow] is that settlement. The
    boolean tells whether [apiService.processVideo] was called. *)
Definition processVideo (health : fetchOutcome) (progress : list Q)
    (workflow : settlement jsonValue) (s : State) : State * bool :=
  let s := setResult JNull (setUploadProgress 0 (setIsUploading true s)) in
  match checkServerHealth health with
  | Rejected m => (catch_block m s, false)
  | Fulfilled healthCheck =>
      if negb (isHealthy healthCheck) then
        let e := match error healthCheck with
                 | Some m => m
                 | None => "undefined"
                 end in
        (catch_block ("Server not available: " ++ e) s, false)
      else
        let s := fold_left (fun s p => setUploadProgress p s) progress s in
        match workflow with
        | Rejected m => (catch_block m s, true)
        | Fulfilled finalResult =>
            let s := setIsUploading false s in
            match handleResult finalResult with
            | Rejected m => (catch_block m s, true)
            | Fulfilled r => (goToSlide 3 (setResult r s), true)
            end
        end
  end.

(** [onVideoSelected(uri)] up to the first suspension of [processVideo]. *)
Definition onVideoSelected (uri : string) (s : State) : State :=
  setResult JNull (setUploadProgress 0 (setIsUploading true
    (goToSlide 2 (setSelectedVideo (Some uri) s)))).

End App.

(** ** [ResultSlide] *)

Module ResultSlide.

(** The values of the component are [None] when computing [resultString]
    throws (a result that [String()] cannot convert). *)
Definition resultString (result : jsonValue) : option string :=
  match result with
  | JStr s => Some s
  | _ => if truthy (Value result) then ToString result else Some ""
  end.

Definition isError (result : jsonValue) : option bool :=
  match resultString result with
  | None => None
  | Some rs =>
      Some (includes rs "Error:"
            || includes rs "Processing incomplete"
            || match result with JNull => true | _ => false end)
  end.

Definition isSuccess (result : jsonValue) : option bool :=
  match isError result with
  | None => None
  | Some e => Some (truthy (Value result) && negb e)
  end.

Definition subtitle (result : jsonValue) : option string :=
  match isSuccess result, isError result with
  | Some true, _ => Some "The gesture has been recognized successfully."
  | Some false, Some true =>
      Some "There was an issue processing your video. Please try again."
  | Some false, Some false => Some "Processing could not be completed."
  | _, _ => None
  end.

End ResultSlide.

(** ** [DebugStore]: the log store of the debug panel *)

Module DebugStore.

Inductive Level : Type :=
| log
| error
| warn.

(** [id] and [timestamp] come from the clock and the random generator. *)
Record LogEntry : Type := mkEntry {
  id : string;
  timestamp : string;
  level : Level;
  tag : string;
  message : string;
  data : jsval
}.

(** The two fields of the store and, for each call of a listener, the
    listener and the copy of the logs it was given (oldest call first).
    A listener is identified by a number. *)
Record Store : Type := mk {
  logs : list LogEntry;
  listeners : list nat;
  delivered : list (nat * list LogEntry)
}.

Definition empty : Store := mk [] [] [].

Definition notifyListeners (s : Store) : Store :=
  mk (logs s) (listeners s)
     (delivered s ++ map (fun listener => (listener, logs s)) (listeners s))%list.

Definition addLog (entry : LogEntry) (s : Store) : Store :=
  let unshifted := entry :: logs s in
  let kept := if (100 <? Z.of_nat (List.length unshifted))
              then firstn 100 unshifted else unshifted in
  notifyListeners (mk kept (listeners s) (delivered s)).

Definition subscribe (listener : nat) (s : Store) : Store :=
  mk (logs s) (listeners s ++ [listener])%list (delivered s).

(** The function that [subscribe(listener)] returns. *)
Definition unsubscribe (listener : nat) (s : Store) : Store :=
  mk (logs s) (filter (fun l => negb (Nat.eqb l listener)) (listeners s)) (delivered s).

Definition clearLogs (s : Store) : Store :=
  notifyListeners (mk [] (listeners s) (delivered s)).

Definition getLogs (s : Store) : list LogEntry := logs s.

Inductive op : Type :=
| AddLog (entry : LogEntry)
| Subscribe (listener : nat)
| Unsubscribe (listener : nat)
| ClearLogs.

Definition apply (o : op) (s : Store) : Store :=
  match o with
  | AddLog entry => addLog entry s
  | Subscribe listener => subscribe listener s
  | Unsubscribe listener => unsubscribe listener s
  | ClearLogs => clearLogs s
  end.

Definition run (ops : list op) (s : Store) : Store :=
  fold_left (fun s o => apply o s) ops s.

(** The calls that [listener] received. *)
Definition received (listener : nat) (s : Store) : list (list LogEntry) :=
  map snd (filter (fun d => Nat.eqb (fst d) listener) (delivered s)).

(** [filteredLogs] of [DebugPanel]; [None] is the filter 'all'. *)
Definition level_eqb (a b : Level) : bool :=
  match a, b with
  | log, log | error, error | warn, warn => true
  | _, _ => false
  end.

Definition filteredLogs (filter_ : option Level) (l : list LogEntry) : list LogEntry :=
  filter (fun e => match filter_ with
                   | None => true
                   | Some f => level_eqb (level e) f
                   end) l.

End DebugStore.

(** ** Vocabulary of the properties *)

(** The message [m] contains the status code, the status text and the body
    of the response [r]. *)
Definition mentions (m : string) (r : Response) : Prop :=
  includes m (string_of_Z (status r)) = true /\
  includes m (statusText r) = true /\
  includes m (text r) = true.

(** The timers of [processVideo] and the reconnection bound of the channel
    are the ones of the configuration [cfg]. *)
Definition uses_config (cfg : AppConfig) : Prop :=
  scheduled (fst processVideo) = [PROCESSING_TIMEOUT cfg; UPLOAD_TIMEOUT cfg] /\
  maxReconnectAttempts = MAX_RETRY_ATTEMPTS cfg.

(** The settlement that a history of calls gives to the promise: the one of
    the first call of [resolve] or [reject]. *)
Fixpoint first_settlement (l : list call) : option (settlement jsonValue) :=
  match l with
  | [] => None
  | Resolve v :: _ => Some (Fulfilled v)
  | Reject m :: _ => Some (Rejected m)
  | _ :: rest => first_settlement rest
  end.

(** Invariant of a [processVideo] call: the promise holds the first
    settlement asked for; it is settled as soon as the overall timer is no
    longer pending; it is fulfilled only with a frame of status 'done'; the
    history of calls starts with the first status text. *)
Definition Inv (w : Workflow) : Prop :=
  promise w = first_settlement (calls w) /\
  (timeoutId w <> Pending -> promise w <> None) /\
  (forall v, promise w = Some (Fulfilled v) ->
             get v "status" = Some (Value (JStr "done"))) /\
  hd_error (calls w) = Some (StatusText "Uploading video...").

(** A run in which the overall timer expires while the channel is open and
    the server keeps sending 'processing' frames. *)
Definition received_v1 : jsonValue :=
  JObj [("status", JStr "received"); ("video_id", JStr "v1")].
Definition processing_frame : jsonValue := JObj [("status", JStr "processing")].
Definition deadline_trace : list event :=
  [UploadSettles (FetchResolves (mkResponse 200 "OK" "" (inr received_v1))) Normal;
   Socket OnOpen 0;
   Socket (OnMessage (inr processing_frame)) 0;
   DeadlineFires;
   Socket (OnMessage (inr processing_frame)) 0].

(** A run of the handlers of one channel. *)
Definition runChannel {Caller : Type}
    (onStatusUpdate : jsonValue -> Caller -> Caller * completion)
    (onError : string -> Caller -> Caller)
    (evs : list wsEvent) (st : Caller * ChannelSession) : Caller * ChannelSession :=
  fold_left (fun s e => handle onStatusUpdate onError e s) evs st.

Definition isNewWebSocket (a : action) : bool :=
  match a with NewWebSocket _ => true | _ => false end.
Definition isSetTimeout (a : action) : bool :=
  match a with SetTimeout _ => true | _ => false end.
Definition isOnOpen (e : wsEvent) : bool :=
  match e with OnOpen => true | _ => false end.
Definition count {A : Type} (f : A -> bool) (l : list A) : nat :=
  List.length (filter f l).

(** The action opens a socket at [url], or opens none. *)
Definition opensAt (url : string) (a : action) : Prop :=
  match a with NewWebSocket u => u = url | _ => True end.

(** The action is the close that the channel itself makes after a terminal
    frame, or is no close. *)
Definition ownClose (a : action) : Prop :=
  match a with
  | Close code reason => code = 1000 /\ reason = "Processing complete"
  | _ => True
  end.

(** Invariant of a channel session opened at [url]: the attempt counter
    stays within the bound; a connected channel has a socket; every socket
    is opened at [url]; every socket but the first comes from a scheduled
    reconnection. *)
Definition channelInv (url : string) (ch : ChannelSession) : Prop :=
  0 <= reconnectAttempts ch <= 3 /\
  (isConnected ch = true -> ws ch <> None) /\
  wsUrl ch = url /\
  Forall (opensAt url) (actions ch) /\
  (count isNewWebSocket (actions ch) + List.length (timers ch)
   <= 1 + count isSetTimeout (actions ch))%nat.

(** The event is an upload that [processVideo] accepts: [uploadVideo]
    resolves with a body whose [status] is 'received'. *)
Definition accepted (e : event) : bool :=
  match e with
  | UploadSettles f _ =>
      match uploadVideo f with
      | Fulfilled v =>
          match get v "status" with
          | Some s => is_string s "received"
          | None => false
          end
      | Rejected _ => false
      end
  | _ => false
  end.

(** Histories of calls in which every [resolve] directly follows
    [onProgress(100)] and [onStatusUpdate('Analysis complete!')]. *)
Inductive Announced : list call -> Prop :=
| Announced_nil : Announced []
| Announced_other (l : list call) (c : call) :
    (forall v, c <> Resolve v) -> Announced l -> Announced (l ++ [c])%list
| Announced_done (l : list call) (v : jsonValue) :
    Announced l ->
    Announced (l ++ [Progress 100; StatusText "Analysis complete!"; Resolve v])%list.

(** Invariant of a [processVideo] call and its channel: the race of step 1
    is over once its timer has fired; no channel exists while the executor
    waits for the race; [wsCleanup] is set exactly when a channel exists;
    the only closes made on the channel are its own. *)
Definition Inv2 (st : State) : Prop :=
  (uploadTimer (fst st) <> Pending -> awaiting (fst st) = false) /\
  (awaiting (fst st) = true -> snd st = None) /\
  (wsCleanup (fst st) = true <-> snd st <> None) /\
  (forall ch, snd st = Some ch -> Forall ownClose (actions ch)).

(** [w'] has the variables of the race and [wsCleanup] of [w]. *)
Definition sameRace (w w' : Workflow) : Prop :=
  awaiting w' = awaiting w /\ uploadTimer w' = uploadTimer w /\
  wsCleanup w' = wsCleanup w.

(** The calls that the handling of the event [e] in the state [st] adds
    to the history of calls. *)
Definition added (url : string) (e : event) (st : State) : list call :=
  skipn (List.length (calls (fst st))) (calls (fst (step url e st))).

(** Among the calls [delta], a status text comes before every call of
    [reject]. *)
Definition announcesRejection (delta : list call) : Prop :=
  forall before m after,
    delta = (before ++ Reject m :: after)%list ->
    exists s, In (StatusText s) before.

(** * Properties *)

(** ** Strings *)

Lemma prefix_nil (t : string) : prefix "" t = true.
Proof. destruct t; reflexivity. Qed.

Lemma prefix_app (s t : string) : prefix s (s ++ t) = true.
Proof.
  induction s as [|a s IH]; simpl; [apply prefix_nil|].
  destruct (ascii_dec a a) as [_|ne]; [exact IH | contradiction].
Qed.

Lemma includes_here (n h : string) : prefix n h = true -> includes h n = true.
Proof. intros H. destruct h; cbn [includes]; rewrite H; reflexivity. Qed.

Lemma includes_app_r (a s n : string) :
  includes s n = true -> includes (a ++ s) n = true.
Proof.
  intros H. induction a as [|c a IH]; [exact H|].
  change (String c a ++ s) with (String c (a ++ s)). cbn [includes].
  rewrite IH. apply orb_true_r.
Qed.

Lemma includes_infix (a n b : string) : includes (a ++ n ++ b) n = true.
Proof. apply includes_app_r, includes_here, prefix_app. Qed.

Lemma append_nil_r (s : string) : s ++ "" = s.
Proof. induction s; simpl; congruence. Qed.

Lemma includes_suffix (a n : string) : includes (a ++ n) n = true.
Proof.
  rewrite <- (append_nil_r n) at 1. apply includes_infix.
Qed.

Lemma includes_refl (n : string) : includes n n = true.
Proof. apply includes_here. rewrite <- (append_nil_r n) at 2. apply prefix_app. Qed.

Lemma or_default_nonempty (m d : string) : d <> "" -> or_default m d <> "".
Proof. destruct m; simpl; [auto | discriminate]. Qed.

(** ** Upload operation *)

Lemma httpError_mentions (r : Response) :
  mentions ("Upload failed: " ++ Upload.httpError r) r.
Proof.
  unfold mentions, Upload.httpError. repeat split.
  - apply includes_app_r, includes_infix.
  - do 4 apply includes_app_r. apply includes_here, prefix_app.
  - do 6 apply includes_app_r. apply includes_refl.
Qed.

(** C6 (as amended): for every response that is not 2xx, [uploadVideo]
    fails, and its message is the one the [catch] block derives from
    "Upload failed: <status> <statusText> - <body>"; when that text contains
    neither "Network request failed" nor "timeout", the message contains the
    status code, the status text and the body. *)
Theorem uploadVideo_http_error (r : Response) :
  ok r = false ->
  uploadVideo (FetchResolves r) = Rejected (Upload.catch_block (Upload.httpError r)) /\
  (includes (Upload.httpError r) "Network request failed" = false ->
   includes (Upload.httpError r) "timeout" = false ->
   Upload.catch_block (Upload.httpError r) = "Upload failed: " ++ Upload.httpError r /\
   mentions (Upload.catch_block (Upload.httpError r)) r).
Proof.
  intros Hok. split.
  - unfold uploadVideo, Upload.try_block. rewrite Hok. reflexivity.
  - intros Hn Ht. unfold Upload.catch_block. rewrite Hn, Ht.
    split; [reflexivity | apply httpError_mentions].
Qed.

(** Instance of C6 at status 500 and body "disk full". *)
Lemma uploadVideo_http_error_witness :
  let r := mkResponse 500 "Internal Server Error" "disk full" (inl "") in
  ok r = false /\
  exists m, uploadVideo (FetchResolves r) = Rejected m /\
            includes m "500" = true /\ includes m "disk full" = true.
Proof.
  intros r. split; [reflexivity|].
  destruct (uploadVideo_http_error r eq_refl) as [Hrej Hm].
  destruct (Hm eq_refl eq_refl) as [_ [Hcode [_ Hbody]]].
  exists (Upload.catch_block (Upload.httpError r)).
  split; [exact Hrej | split; [exact Hcode | exact Hbody]].
Defined.

(** C6 (as stated) fails: a 504 response whose body contains "timeout" is
    reported by the fixed time-out hint, which contains neither the status
    code nor the body. *)
Lemma uploadVideo_http_error_counterexample :
  let r := mkResponse 504 "Gateway Timeout" "upstream timeout" (inl "") in
  ok r = false /\
  uploadVideo (FetchResolves r)
    = Rejected "Upload timed out. Please try again with a smaller video file." /\
  ~ mentions "Upload timed out. Please try again with a smaller video file." r.
Proof.
  intros r. split; [reflexivity|]. split; [reflexivity|].
  intros [H _]. vm_compute in H. discriminate H.
Qed.

(** C10: for a 2xx response whose body parses to [v], [uploadVideo]
    resolves with [v] itself, whatever its [status] field; the comparison
    with 'received' is made by [processVideo] when it resumes: when the
    field differs it rejects, with "Upload failed with status: ..." (or
    with the [TypeError] of a status that cannot be printed), and opens no
    channel; when it is equal it reports the upload and opens the channel
    at ".../ws/<video_id>" (or, for a [video_id] that cannot be printed,
    rejects with that [TypeError] without reporting the upload). *)
Theorem uploadVideo_returns_body_unchecked
    (this_wsUrl : string) (r : Response) (v : jsonValue) (construct : completion) :
  ok r = true ->
  json r = inr v ->
  uploadVideo (FetchResolves r) = Fulfilled v /\
  forall s, get v "status" = Some s ->
    let st := step this_wsUrl (UploadSettles (FetchResolves r) construct) processVideo in
    (is_string s "received" = false ->
       promise (fst st)
       = Some (Rejected (match template s with
                         | Some shown => "Upload failed with status: " ++ shown
                         | None => typeError_primitive
                         end)) /\
       snd st = None) /\
    (is_string s "received" = true ->
       forall video_id, get v "video_id" = Some video_id ->
         match template video_id with
         | Some videoId =>
             In (StatusText "Video uploaded, starting analysis...") (calls (fst st)) /\
             exists ch, snd st = Some ch /\ wsCleanup (fst st) = true /\
                        wsUrl ch = this_wsUrl ++ "/ws/" ++ videoId
         | None =>
             snd st = None /\
             promise (fst st) = Some (Rejected typeError_primitive) /\
             calls (fst st)
             = [StatusText "Uploading video..."; Progress 10; Reject typeError_primitive]
         end).
Proof.
  intros Hok Hjson.
  assert (Hup : uploadVideo (FetchResolves r) = Fulfilled v).
  { unfold uploadVideo, Upload.try_block. rewrite Hok, Hjson. reflexivity. }
  split; [exact Hup|].
  intros s Hs st. subst st. unfold step. simpl awaiting. cbv iota. rewrite Hup.
  unfold resume. rewrite Hs. split; intros Hr; rewrite Hr; simpl negb; cbv iota.
  - destruct (template s); split; reflexivity.
  - intros video_id Hv. rewrite Hv.
    destruct (template video_id); [|repeat split].
    destruct construct; simpl; (split; [tauto|]); eexists; repeat split.
Qed.

(** Instance of C10 at a 200 response whose body has no [status] field. *)
Lemma uploadVideo_returns_body_unchecked_witness :
  let v := JObj [("video_id", JStr "v1")] in
  let r := mkResponse 200 "OK" "" (inr v) in
  uploadVideo (FetchResolves r) = Fulfilled v /\
  promise (fst (step "wss://host" (UploadSettles (FetchResolves r) Normal) processVideo))
    = Some (Rejected "Upload failed with status: undefined").
Proof.
  intros v r.
  destruct (uploadVideo_returns_body_unchecked "wss://host" r v Normal eq_refl eq_refl)
    as [Hup Hs].
  split; [exact Hup|].
  destruct (Hs Undefined eq_refl) as [Hrej _].
  destruct (Hrej eq_refl) as [Hp _]. exact Hp.
Defined.

(** ** Health probe *)

(** C7 (as amended): [checkServerHealth] always resolves; it reports
    healthy exactly when the response is 2xx and its body parses as JSON,
    and otherwise reports unhealthy with a non-empty message. *)
Theorem checkServerHealth_resolves (f : fetchOutcome) :
  exists h, checkServerHealth f = Fulfilled h /\
    (isHealthy h = true <->
       exists r v, f = FetchResolves r /\ ok r = true /\ json r = inr v) /\
    (isHealthy h = false -> exists m, error h = Some m /\ m <> "").
Proof.
  unfold checkServerHealth, Health.try_block, Health.catch_block.
  destruct f as [m | r].
  - eexists; split; [reflexivity|]. simpl. split; [split|].
    + discriminate.
    + intros (r & v & H & _). discriminate H.
    + intros _. eexists; split; [reflexivity|].
      apply or_default_nonempty. discriminate.
  - destruct (ok r) eqn:Hok; [destruct (json r) as [m | v] eqn:Hj|].
    + eexists; split; [reflexivity|]. simpl. split; [split|].
      * discriminate.
      * intros (r' & v & H & _ & Hj'). inversion H; subst. congruence.
      * intros _. eexists; split; [reflexivity|].
        apply or_default_nonempty. discriminate.
    + eexists; split; [reflexivity|]. simpl. split; [split|].
      * intros _. exists r, v. auto.
      * reflexivity.
      * discriminate.
    + eexists; split; [reflexivity|]. simpl. split; [split|].
      * discriminate.
      * intros (r' & v & H & Hok' & _). inversion H; subst. congruence.
      * intros _. eexists; split; [reflexivity|]. discriminate.
Qed.

(** C7 (as stated) fails: a 200 response whose body is not JSON is
    reported as unhealthy. *)
Lemma checkServerHealth_counterexample :
  let r := mkResponse 200 "OK" "OK" (inl "JSON Parse error: Unexpected token: O") in
  ok r = true /\
  checkServerHealth (FetchResolves r)
    = Fulfilled (mkHealth false (Some "JSON Parse error: Unexpected token: O")).
Proof. split; reflexivity. Qed.

(** ** Configuration *)

(** C9 (as amended): whatever the configuration, [processVideo] schedules
    its overall timer at 180000 ms and its upload timer at 120000 ms, and
    the channel allows 3 reconnection attempts; these agree with a
    configuration exactly when it holds these three values. *)
Theorem timeouts_are_constants (cfg : AppConfig) :
  scheduled (fst processVideo) = [180000; 120000] /\
  maxReconnectAttempts = 3 /\
  (uses_config cfg <->
     PROCESSING_TIMEOUT cfg = 180000 /\ UPLOAD_TIMEOUT cfg = 120000 /\
     MAX_RETRY_ATTEMPTS cfg = 3).
Proof.
  split; [reflexivity|]. split; [reflexivity|].
  unfold uses_config. simpl. unfold maxReconnectAttempts, OVERALL_TIMEOUT, UPLOAD_RACE_TIMEOUT.
  split.
  - intros [H1 H2]. inversion H1. auto.
  - intros (H1 & H2 & H3). rewrite H1, H2, H3. auto.
Qed.

(** C9 (as stated) fails: the upload timer of [processVideo] is 120000 ms
    where both configurations say 60000, and the production configuration
    allows 5 attempts where the channel allows 3. *)
Lemma timeouts_are_constants_counterexample :
  ~ uses_config (CONFIG true) /\ ~ uses_config (CONFIG false) /\
  UPLOAD_TIMEOUT DEV_CONFIG = 60000 /\ MAX_RETRY_ATTEMPTS PROD_CONFIG = 5.
Proof.
  repeat split; try reflexivity; intros [H _]; vm_compute in H; discriminate H.
Qed.

(** ** Live status channel *)

Lemma nth_error_last {A : Type} (l : list A) (d : A) :
  nth_error (l ++ [d])%list (List.length l) = Some d.
Proof. induction l as [|x l IH]; simpl; [reflexivity | exact IH]. Qed.

Lemma remove_nth_last {A : Type} (l : list A) (d : A) :
  remove_nth (List.length l) (l ++ [d])%list = l.
Proof. induction l as [|x l IH]; simpl; [reflexivity | rewrite IH; reflexivity]. Qed.

(** C4: on a close with a code other than 1000, with [n] reconnection
    attempts counted so far: if [n < 3] the channel counts one more attempt
    and schedules [connect] after [2000 * (n + 1)] ms, and the expiry of that
    timer runs [connect]; if [n] has reached 3 it calls the error callback
    with the exhaustion error and schedules nothing. *)
Theorem onclose_reconnects_with_backoff
    {Caller : Type} (onError : string -> Caller -> Caller)
    (c : Caller) (ch : ChannelSession) (code : Z) :
  code <> 1000 ->
  let n := reconnectAttempts ch in
  let st := onclose onError code (c, ch) in
  (n < 3 ->
     let d := 2000 * (n + 1) in
     st = (c, mkSession (wsUrl ch) (ws ch) false (n + 1) (messageCount ch)
                        (timers ch ++ [d])%list (actions ch ++ [SetTimeout d])%list) /\
     forall construct,
       ontimer onError (List.length (timers ch)) construct st
       = connect onError construct
           (c, mkSession (wsUrl ch) (ws ch) false (n + 1) (messageCount ch)
                         (timers ch) (actions ch ++ [SetTimeout d])%list)) /\
  (3 <= n ->
     st = (onError "WebSocket connection failed after multiple attempts" c,
           mkSession (wsUrl ch) (ws ch) false n (messageCount ch) (timers ch)
                     (actions ch
                        ++ [ErrorCallback "WebSocket connection failed after multiple attempts"])%list)).
Proof.
  intros Hcode n st. subst n st. unfold onclose.
  assert (Hc : negb (code =? 1000) = true).
  { apply negb_true_iff, Z.eqb_neq, Hcode. }
  rewrite Hc. simpl reconnectAttempts. unfold maxReconnectAttempts. split.
  - intros Hn. apply Z.ltb_lt in Hn. rewrite Hn. simpl. split; [reflexivity|].
    intros construct. unfold ontimer. simpl.
    rewrite nth_error_last, remove_nth_last. reflexivity.
  - intros Hn. apply Z.ltb_ge in Hn. rewrite Hn. reflexivity.
Qed.

(** Instances of C4 at a close of code 1006 with 2 and with 3 attempts
    counted. *)
Lemma onclose_reconnects_with_backoff_witness :
  let ch := mkSession "wss://host/ws/v1" (Some O) true 2 5 [] [] in
  timers (snd (onclose (fun _ (c : unit) => c) 1006 (tt, ch))) = [6000] /\
  actions (snd (onclose (fun _ (c : unit) => c) 1006
                  (tt, set_reconnectAttempts 3 ch)))
    = [ErrorCallback "WebSocket connection failed after multiple attempts"].
Proof.
  intros ch. split.
  - destruct (onclose_reconnects_with_backoff (fun _ (c : unit) => c) tt ch 1006
                ltac:(discriminate)) as [H _].
    destruct (H ltac:(reflexivity)) as [E _]. rewrite E. reflexivity.
  - destruct (onclose_reconnects_with_backoff (fun _ (c : unit) => c) tt
                (set_reconnectAttempts 3 ch) 1006 ltac:(discriminate)) as [_ H].
    rewrite (H ltac:(discriminate)). reflexivity.
Defined.

(** Successive abnormal closes, each followed by the expiry of its timer,
    wait 2 s, 4 s and 6 s; the fourth one reports the exhaustion error. *)
Example backoff_2s_4s_6s :
  let onError := fun (_ : string) (c : unit) => c in
  let drop := fun st => ontimer onError 0 Normal (onclose onError 1006 st) in
  actions (snd (onclose onError 1006
                  (drop (drop (drop (connectToProcessing onError "u" Normal tt))))))
  = [NewWebSocket "u"; SetTimeout 2000; NewWebSocket "u"; SetTimeout 4000;
     NewWebSocket "u"; SetTimeout 6000; NewWebSocket "u";
     ErrorCallback "WebSocket connection failed after multiple attempts"].
Proof. reflexivity. Qed.

(** C5: a frame whose [status] is 'done', 'timeout' or 'error' is first
    handed to the status callback and then the channel calls
    [close(1000, _)] on its socket; the close event of code 1000 that
    follows schedules no reconnection and reports no error. The callback
    is taken to return normally. *)
Theorem terminal_frame_closes_normally
    {Caller : Type} (onStatusUpdate : jsonValue -> Caller -> Caller * completion)
    (onError : string -> Caller -> Caller)
    (c : Caller) (ch : ChannelSession) (socket : nat) (data : jsonValue) (s : string) :
  ws ch = Some socket ->
  get data "status" = Some (Value (JStr s)) ->
  s = "done" \/ s = "timeout" \/ s = "error" ->
  snd (onStatusUpdate data c) = Normal ->
  let st := onmessage onStatusUpdate onError (inr data) (c, ch) in
  fst st = fst (onStatusUpdate data c) /\
  actions (snd st)
    = (actions ch ++ [StatusUpdate data; Close 1000 "Processing complete"])%list /\
  timers (snd st) = timers ch /\
  let st' := onclose onError 1000 st in
  fst st' = fst st /\
  isConnected (snd st') = false /\
  timers (snd st') = timers ch /\
  actions (snd st') = actions (snd st) /\
  reconnectAttempts (snd st') = reconnectAttempts ch.
Proof.
  intros Hws Hget Hs Hk st. subst st. unfold onmessage. cbn [fst snd].
  destruct (onStatusUpdate data c) as [c' k] eqn:E. simpl in Hk. subst k.
  rewrite Hget.
  assert (Ht : terminal (Value (JStr s)) = true).
  { destruct Hs as [-> | [-> | ->]]; reflexivity. }
  rewrite Ht. simpl ws. rewrite Hws. unfold onclose. simpl.
  rewrite <- app_assoc. simpl. repeat split; reflexivity.
Qed.

(** Instance of C5 at a 'done' frame, with the callbacks of [processVideo]. *)
Lemma terminal_frame_closes_normally_witness :
  let data := JObj [("status", JStr "done")] in
  let ch := mkSession "wss://host/ws/v1" (Some O) true 0 0 [] [NewWebSocket "wss://host/ws/v1"] in
  actions (snd (onmessage (statusCallback 0) errorCallback (inr data) (fst processVideo, ch)))
  = [NewWebSocket "wss://host/ws/v1"; StatusUpdate data; Close 1000 "Processing complete"].
Proof.
  intros data ch.
  destruct (terminal_frame_closes_normally (statusCallback 0) errorCallback
              (fst processVideo) ch O data "done" eq_refl eq_refl (or_introl eq_refl) eq_refl)
    as (_ & H & _).
  exact H.
Defined.

(** C3 (as amended): the cleanup function calls [close(1000, _)] when a
    socket exists and the channel is connected, and the close event of
    code 1000 that follows schedules no reconnection; when the channel is
    not connected it does nothing, so a reconnection that is already
    scheduled stays scheduled; after any close event has been handled it
    does nothing. *)
Theorem cleanup_closes_open_channel (ch : ChannelSession) :
  (ws ch <> None -> isConnected ch = true ->
     cleanup ch = act (Close 1000 "Manual disconnect") ch /\
     forall (Caller : Type) (onError : string -> Caller -> Caller) (c : Caller),
       onclose onError 1000 (c, cleanup ch) = (c, set_isConnected false (cleanup ch))) /\
  (isConnected ch = false -> cleanup ch = ch) /\
  (forall (Caller : Type) (onError : string -> Caller -> Caller) (c : Caller) (code : Z),
     cleanup (snd (onclose onError code (c, ch))) = snd (onclose onError code (c, ch))).
Proof.
  split; [|split].
  - intros Hws Hc. unfold cleanup. rewrite Hc.
    destruct (ws ch) as [n|]; [|contradiction]. split; reflexivity.
  - intros Hc. unfold cleanup. rewrite Hc. destruct (ws ch); reflexivity.
  - intros Caller onError c code. unfold onclose, cleanup.
    destruct (negb (code =? 1000) && _); [|destruct (negb (code =? 1000))];
      simpl; destruct (ws ch); reflexivity.
Qed.

(** Instances of C3 at a connected and at a disconnected session. *)
Lemma cleanup_closes_open_channel_witness :
  let ch := mkSession "wss://host/ws/v1" (Some O) true 0 0 [] [NewWebSocket "wss://host/ws/v1"] in
  actions (cleanup ch) = [NewWebSocket "wss://host/ws/v1"; Close 1000 "Manual disconnect"] /\
  cleanup (set_isConnected false ch) = set_isConnected false ch.
Proof.
  intros ch.
  destruct (cleanup_closes_open_channel ch) as (Hopen & _).
  destruct (Hopen ltac:(discriminate) eq_refl) as [E _].
  destruct (cleanup_closes_open_channel (set_isConnected false ch)) as (_ & Hoff & _).
  split; [rewrite E; reflexivity | exact (Hoff eq_refl)].
Defined.

(** C3 (as stated) fails: after an abnormal close a reconnection is
    scheduled; the cleanup function then changes nothing, and the expiry of
    the timer still creates a new socket. *)
Lemma cleanup_counterexample :
  let onError := fun (_ : string) (c : unit) => c in
  let st := onclose onError 1006
              (onopen (connectToProcessing onError "wss://host/ws/v1" Normal tt)) in
  timers (snd st) = [2000] /\
  cleanup (snd st) = snd st /\
  actions (snd (ontimer onError 0 Normal (fst st, cleanup (snd st))))
  = [NewWebSocket "wss://host/ws/v1"; SetTimeout 2000; NewWebSocket "wss://host/ws/v1"].
Proof. intros onError st. split; [|split]; vm_compute; reflexivity. Qed.

(** What the handlers of a channel do to their caller is what the two
    callbacks do. *)
Lemma handle_preserves
    {Caller : Type} (P : Caller -> Prop)
    (onStatusUpdate : jsonValue -> Caller -> Caller * completion)
    (onError : string -> Caller -> Caller) :
  (forall d c, P c -> P (fst (onStatusUpdate d c))) ->
  (forall m c, P c -> P (onError m c)) ->
  forall e st, P (fst st) -> P (fst (handle onStatusUpdate onError e st)).
Proof.
  intros HS HE e [c ch] HP. cbn [fst] in HP.
  destruct e as [| data | | code | i construct]; unfold handle; cbn [fst snd].
  - destruct (ws ch); exact HP.
  - destruct (ws ch) as [n|] eqn:Hws; [|exact HP].
    unfold onmessage. cbn [fst snd]. destruct data as [m | data].
    + apply HE, HP.
    + pose proof (HS data c HP) as HP'.
      destruct (onStatusUpdate data c) as [c' k]. cbn [fst] in HP'.
      destruct k; [|apply HE, HP'].
      destruct (get data "status") as [s|]; [|apply HE, HP'].
      destruct (terminal s); [|exact HP'].
      simpl. rewrite Hws. exact HP'.
  - destruct (ws ch); [apply HE, HP | exact HP].
  - destruct (ws ch); [|exact HP]. unfold onclose. cbn [fst snd].
    destruct (negb (code =? 1000) && _); [exact HP|].
    destruct (negb (code =? 1000)); [apply HE, HP | exact HP].
  - unfold ontimer. cbn [fst snd]. destruct (nth_error (timers ch) i); [|exact HP].
    destruct construct; [exact HP | apply HE, HP].
Qed.

(** ** Processing orchestrator *)

Lemma is_string_true (s : jsval) (t : string) :
  is_string s t = true -> s = Value (JStr t).
Proof.
  destruct s as [|[]]; simpl; try discriminate.
  intros H. apply String.eqb_eq in H. subst. reflexivity.
Qed.

Section StepPreserves.

Variable P : Workflow -> Prop.
Hypothesis P_status : forall s w, P w -> P (onStatusUpdate s w).
Hypothesis P_progress : forall p w, P w -> P (onProgress p w).
Hypothesis P_awaiting : forall b w, P w -> P (set_awaiting b w).
Hypothesis P_uploadTimer : forall t w, P w -> P (set_uploadTimer t w).
Hypothesis P_wsCleanup : forall b w, P w -> P (set_wsCleanup b w).
Hypothesis P_fail : forall m w, P w -> P (reject m (clearTimeout w)).
Hypothesis P_done : forall v w,
  get v "status" = Some (Value (JStr "done")) -> P w ->
  P (resolve v (onStatusUpdate "Analysis complete!" (onProgress 100 (clearTimeout w)))).
Hypothesis P_server_fail : forall m s w,
  P w -> P (reject m (onStatusUpdate s (onProgress 100 (clearTimeout w)))).
Hypothesis P_deadline : forall m w,
  timeoutId w = Pending -> P w -> P (reject m (set_timeoutId Fired w)).

Lemma statusCallback_preserves (rnd : Q) (d : jsonValue) (w : Workflow) :
  P w -> P (fst (statusCallback rnd d w)).
Proof.
  intros HP. unfold statusCallback.
  destruct (get d "status") as [s|] eqn:Hs; [|exact HP].
  destruct (is_string s "processing"); [apply P_status, P_progress, HP|].
  destruct (is_string s "done") eqn:Hd.
  { apply is_string_true in Hd. subst s. apply P_done; assumption. }
  destruct (is_string s "timeout"); [apply P_server_fail, HP|].
  destruct (is_string s "error"); [apply P_server_fail, HP | exact HP].
Qed.

Lemma errorCallback_preserves (m : string) (w : Workflow) :
  P w -> P (errorCallback m w).
Proof. apply P_fail. Qed.

Lemma catch_block_preserves (m : string) (st : State) :
  P (fst st) -> P (fst (catch_block m st)).
Proof. intros HP. unfold catch_block. cbn [fst]. apply P_fail, HP. Qed.

Lemma resume_preserves (url : string) (v : jsonValue) (k : completion) (st : State) :
  P (fst st) -> P (fst (resume url v k st)).
Proof.
  intros HP. unfold resume.
  destruct (get v "status") as [s|]; [|apply catch_block_preserves, HP].
  destruct (negb (is_string s "received"));
    [destruct (template s); apply catch_block_preserves, HP|].
  destruct (get v "video_id") as [video_id|].
  - destruct (template video_id) as [videoId|].
    + unfold connectToProcessing, connect, callError.
      destruct k; cbn [fst snd]; apply P_wsCleanup.
      * apply P_status, P_progress, HP.
      * apply errorCallback_preserves, P_status, P_progress, HP.
    + apply catch_block_preserves, HP.
  - apply catch_block_preserves, HP.
Qed.

Lemma step_preserves (url : string) (e : event) (st : State) :
  P (fst st) -> P (fst (step url e st)).
Proof.
  intros HP. destruct e as [f k | | | e rnd]; unfold step.
  - destruct (awaiting (fst st)); [|exact HP].
    destruct (uploadVideo f) as [v | m].
    + apply resume_preserves. cbn [fst]. apply P_awaiting, HP.
    + apply catch_block_preserves. cbn [fst]. apply P_awaiting, HP.
  - destruct (uploadTimer (fst st)); try exact HP.
    cbn [fst snd]. destruct (awaiting (set_uploadTimer Fired (fst st))).
    + apply catch_block_preserves. cbn [fst]. apply P_awaiting, P_uploadTimer, HP.
    + cbn [fst]. apply P_uploadTimer, HP.
  - destruct (timeoutId (fst st)) eqn:Ht; try exact HP.
    cbn [fst]. apply P_deadline; assumption.
  - destruct (snd st) as [ch|]; [|exact HP].
    pose proof (handle_preserves P (statusCallback rnd) errorCallback
                  (statusCallback_preserves rnd) errorCallback_preserves
                  e (fst st, ch) HP) as H.
    destruct (handle (statusCallback rnd) errorCallback e (fst st, ch)).
    exact H.
Qed.

Lemma run_preserves (url : string) (evs : list event) (st : State) :
  P (fst st) -> P (fst (run url evs st)).
Proof.
  revert st. induction evs as [|e evs IH]; intros st HP; [exact HP|].
  simpl. apply IH, step_preserves, HP.
Qed.

End StepPreserves.

Lemma first_settlement_app (l l' : list call) :
  first_settlement (l ++ l')%list
  = match first_settlement l with
    | Some s => Some s
    | None => first_settlement l'
    end.
Proof.
  induction l as [|c l IH]; [reflexivity|].
  destruct c; simpl; auto.
Qed.

Lemma hd_error_app {A : Type} (l l' : list A) :
  hd_error (l ++ l')%list
  = match hd_error l with
    | Some x => Some x
    | None => hd_error l'
    end.
Proof. destruct l; reflexivity. Qed.

Ltac unfold_ops :=
  unfold resolve, reject, settle, onStatusUpdate, onProgress, called, clearTimeout,
    set_timeoutId, set_uploadTimer, set_awaiting, set_wsCleanup, set_promise in *.

Ltac inv_solve :=
  match goal with
  | H : Inv ?w |- _ =>
      let t := fresh "t" in
      let p := fresh "p" in
      let H1 := fresh "H" in
      let H2 := fresh "H" in
      let H3 := fresh "H" in
      let H4 := fresh "H" in
      destruct w as [t ? ? ? ? p ?]; destruct H as (H1 & H2 & H3 & H4);
      unfold Inv; unfold_ops; simpl in *;
      destruct t; destruct p as [[?|?]|]; simpl;
      rewrite ?first_settlement_app, ?hd_error_app, <- ?H1, ?H4; simpl;
      repeat split; try congruence; auto;
      try (exfalso; apply H2; congruence)
  end.

Lemma Inv_start : Inv (fst processVideo).
Proof.
  unfold Inv. simpl. repeat split; try congruence; discriminate.
Qed.

Lemma Inv_run (url : string) (evs : list event) :
  Inv (fst (run url evs processVideo)).
Proof.
  apply run_preserves; try exact Inv_start; intros.
  - inv_solve.
  - inv_solve.
  - inv_solve.
  - inv_solve.
  - inv_solve.
  - inv_solve.
  - inv_solve.
  - inv_solve.
  - inv_solve.
Qed.

Lemma promise_stable (url : string) (s : settlement jsonValue)
    (evs : list event) (st : State) :
  promise (fst st) = Some s -> promise (fst (run url evs st)) = Some s.
Proof.
  apply (run_preserves (fun w => promise w = Some s));
    intros; destruct w as [tid ? ? ? ? pr ?]; unfold_ops; simpl in *; subst;
    try destruct tid; reflexivity.
Qed.

(** C2: in every run of [processVideo] the promise holds the settlement of
    the first call of [resolve] or [reject] and nothing else: a fulfilment
    carries a frame of status 'done'; once settled, no later event changes
    the settlement; and the promise is settled as soon as the overall timer
    has been cleared or has expired, so that it settles exactly once. *)
Theorem processVideo_settles_exactly_once (url : string) (evs : list event) :
  let st := run url evs processVideo in
  promise (fst st) = first_settlement (calls (fst st)) /\
  (forall v, promise (fst st) = Some (Fulfilled v) ->
             get v "status" = Some (Value (JStr "done"))) /\
  (timeoutId (fst st) <> Pending -> promise (fst st) <> None) /\
  promise (fst (step url DeadlineFires st)) <> None /\
  (forall s more, promise (fst st) = Some s ->
                  promise (fst (run url more st)) = Some s).
Proof.
  intros st. destruct (Inv_run url evs) as (H1 & H2 & H3 & _). fold st in H1, H2, H3.
  split; [exact H1|]. split; [exact H3|]. split; [exact H2|]. split.
  - unfold step. destruct (timeoutId (fst st)) eqn:Ht.
    + cbn [fst]. unfold reject, settle, called, set_promise, set_timeoutId. simpl.
      destruct (promise (fst st)); simpl; discriminate.
    + apply H2. congruence.
    + apply H2. congruence.
  - intros s more Hs. apply promise_stable, Hs.
Qed.

(** Instance of C2: once the overall timer has rejected the promise, a
    later frame leaves the rejection in place. *)
Lemma processVideo_settles_exactly_once_witness :
  let st := run "wss://host" (firstn 4 deadline_trace) processVideo in
  promise (fst st) = Some (Rejected "Overall processing timeout (3 minutes)") /\
  promise (fst (run "wss://host" (skipn 4 deadline_trace) st))
  = Some (Rejected "Overall processing timeout (3 minutes)").
Proof.
  intros st.
  assert (Hs : promise (fst st) = Some (Rejected "Overall processing timeout (3 minutes)")).
  { vm_compute. reflexivity. }
  split; [exact Hs|].
  destruct (processVideo_settles_exactly_once "wss://host" (firstn 4 deadline_trace))
    as (_ & _ & _ & _ & H).
  exact (H _ (skipn 4 deadline_trace) Hs).
Defined.

(** In every run of [processVideo], every call of [reject] comes after a
    status text has been delivered through [onStatusUpdate]: the first
    statement of the [try] block delivers 'Uploading video...'. *)
Lemma some_status_text_precedes_rejection
    (url : string) (evs : list event) (before after : list call) (m : string) :
  calls (fst (run url evs processVideo)) = (before ++ Reject m :: after)%list ->
  exists s, In (StatusText s) before.
Proof.
  intros E. destruct (Inv_run url evs) as (_ & _ & _ & Hhd).
  rewrite E in Hhd. destruct before as [|c before]; simpl in Hhd.
  - discriminate Hhd.
  - inversion Hhd; subst. exists "Uploading video...". left. reflexivity.
Qed.

(** C1 (the code at the failing run): when the overall timer expires while
    the channel is open, the promise is rejected with the overall-timeout
    error, but [close] is never called on the socket and the channel stays
    connected: the next 'processing' frame still reaches [onProgress] and
    [onStatusUpdate], after the rejection. In every state the expiry of
    the overall timer leaves the channel session as it is. *)
Theorem deadline_leaves_channel_open :
  (forall url st, snd (step url DeadlineFires st) = snd st) /\
  let st := run "wss://host" deadline_trace processVideo in
  promise (fst st) = Some (Rejected "Overall processing timeout (3 minutes)") /\
  (exists ch, snd st = Some ch /\ isConnected ch = true /\
     actions ch = [NewWebSocket "wss://host/ws/v1";
                   StatusUpdate processing_frame; StatusUpdate processing_frame]) /\
  skipn 6 (calls (fst st))
  = [Reject "Overall processing timeout (3 minutes)";
     Progress (Qmin 90 (40 + 0 * 30));
     StatusText "Processing landmarks and analyzing gestures..."].
Proof.
  split.
  { intros url st. unfold step. destruct (timeoutId (fst st)); reflexivity. }
  split; [vm_compute; reflexivity|]. split; [|vm_compute; reflexivity].
  eexists. split; [vm_compute; reflexivity|]. split; vm_compute; reflexivity.
Qed.

(** Instance of C7 at a transport failure. *)
Lemma checkServerHealth_resolves_witness :
  exists h, checkServerHealth (FetchRejects "Network request failed") = Fulfilled h /\
            isHealthy h = false /\ exists m, error h = Some m /\ m <> "".
Proof.
  destruct (checkServerHealth_resolves (FetchRejects "Network request failed"))
    as (h & E & _ & Hmsg).
  exists h. split; [exact E|].
  assert (Hh : isHealthy h = false).
  { vm_compute in E. inversion E. reflexivity. }
  split; [exact Hh | exact (Hmsg Hh)].
Defined.

(** Instance of C9 at the one configuration the code agrees with. *)
Lemma timeouts_are_constants_witness :
  uses_config (mkConfig "" "" 120000 180000 3).
Proof.
  destruct (timeouts_are_constants (mkConfig "" "" 120000 180000 3)) as (_ & _ & H).
  apply H. repeat split.
Defined.

(** * Further properties of the code *)

(** ** [uploadVideo] and the start of [processVideo] *)

(** X1: [uploadVideo] resolves exactly when the response is 2xx and its
    body parses, and then with the parsed body; every other outcome of the
    request (transport failure, other status, unparseable body) rejects. *)
Theorem uploadVideo_fulfilled_iff (f : fetchOutcome) (v : jsonValue) :
  uploadVideo f = Fulfilled v <->
  exists r, f = FetchResolves r /\ ok r = true /\ json r = inr v.
Proof.
  unfold uploadVideo, Upload.try_block. split.
  - destruct f as [m | r]; [discriminate|].
    destruct (ok r) eqn:Hok; simpl; [|discriminate].
    destruct (json r) as [m | w] eqn:Hj; [discriminate|].
    intros H. inversion H; subst. exists r. auto.
  - intros (r & -> & Hok & Hj). rewrite Hok, Hj. reflexivity.
Qed.

(** X2: when [uploadVideo] rejects, [processVideo] rejects with the very
    message of [uploadVideo], cancels the overall timer and opens no
    channel; the later expiry of either timer changes neither the promise
    nor the calls made to the caller. *)
Theorem upload_failure_rejects_workflow
    (url : string) (f : fetchOutcome) (construct : completion) (m : string) :
  uploadVideo f = Rejected m ->
  let st := step url (UploadSettles f construct) processVideo in
  promise (fst st) = Some (Rejected m) /\
  timeoutId (fst st) = Cleared /\
  snd st = None /\
  calls (fst st) = [StatusText "Uploading video..."; Progress 10; Reject m] /\
  forall e, e = DeadlineFires \/ e = UploadTimerFires ->
    promise (fst (step url e st)) = Some (Rejected m) /\
    calls (fst (step url e st)) = calls (fst st) /\
    snd (step url e st) = None.
Proof.
  intros Hup st.
  assert (E : st = catch_block m (set_awaiting false (fst processVideo), None)).
  { subst st. unfold step. simpl awaiting. cbv iota. rewrite Hup. reflexivity. }
  rewrite E. clear E st Hup.
  split; [reflexivity|]. split; [reflexivity|]. split; [reflexivity|].
  split; [reflexivity|].
  intros e [-> | ->]; (split; [reflexivity | split; reflexivity]).
Qed.

(** Instance of X2 at a transport failure. *)
Lemma upload_failure_rejects_workflow_witness :
  promise (fst (step "wss://host" (UploadSettles (FetchRejects "Network request failed") Normal)
                     processVideo))
  = Some (Rejected
      "Cannot connect to server. Please check your internet connection and server address.").
Proof.
  exact (proj1 (upload_failure_rejects_workflow "wss://host"
                  (FetchRejects "Network request failed") Normal _ eq_refl)).
Defined.

(** ** The constructor of [ApiService] and the helpers of the configuration *)

Lemma replace_eq (pat rep s : string) :
  replace pat rep s
  = if prefix pat s then rep ++ drop (String.length pat) s
    else match s with
         | EmptyString => EmptyString
         | String c rest => String c (replace pat rep rest)
         end.
Proof. destruct s; reflexivity. Qed.

Lemma drop_length_app (p h : string) : drop (String.length p) (p ++ h) = h.
Proof. induction p as [|c p IH]; simpl; [reflexivity | exact IH]. Qed.

Lemma replace_prefix (pat rep h : string) : replace pat rep (pat ++ h) = rep ++ h.
Proof. rewrite replace_eq, prefix_app, drop_length_app. reflexivity. Qed.

Lemma includes_eq (hay needle : string) :
  includes hay needle
  = prefix needle hay ||
    match hay with
    | EmptyString => false
    | String _ rest => includes rest needle
    end.
Proof. destruct hay; reflexivity. Qed.

Lemma replace_absent (pat rep s : string) :
  includes s pat = false -> replace pat rep s = s.
Proof.
  induction s as [|c s IH]; intros H; rewrite includes_eq in H;
    apply orb_false_iff in H; destruct H as [Hp Hr]; rewrite replace_eq, Hp.
  - reflexivity.
  - rewrite (IH Hr). reflexivity.
Qed.

(** X3: the constructor derives the socket root from the HTTP root by
    exchanging the scheme: "https://h" gives "wss://h" and "http://h" gives
    "ws://h" (for [h] without a further scheme); a root with neither scheme
    is taken over unchanged; and [processVideo] on the instance then opens
    its socket at "wss://h/ws/<video_id>". *)
Theorem constructor_derives_wsUrl (h : string) :
  includes h "http://" = false ->
  Service.wsUrl (Service.constructor (Some ("https://" ++ h))) = "wss://" ++ h /\
  (includes h "https://" = false ->
   Service.wsUrl (Service.constructor (Some ("http://" ++ h))) = "ws://" ++ h) /\
  (includes h "https://" = false -> h <> "" ->
   Service.wsUrl (Service.constructor (Some h)) = h) /\
  forall video_id st,
    awaiting (fst st) = true ->
    option_map actions
      (snd (step (Service.wsUrl (Service.constructor (Some ("https://" ++ h))))
                 (UploadSettles
                    (FetchResolves
                       (mkResponse 200 "OK" ""
                          (inr (JObj [("status", JStr "received");
                                      ("video_id", JStr video_id)]))))
                    Normal) st))
    = Some [NewWebSocket ("wss://" ++ h ++ "/ws/" ++ video_id)].
Proof.
  intros Hh.
  assert (E1 : Service.wsUrl (Service.constructor (Some ("https://" ++ h))) = "wss://" ++ h).
  { unfold Service.constructor. cbn [Service.wsUrl or_default append].
    change (String "h" (String "t" (String "t" (String "p" (String "s"
             (String ":" (String "/" (String "/" h))))))))
      with ("https://" ++ h).
    rewrite replace_prefix. apply replace_absent.
    cbn. exact Hh. }
  split; [exact E1|]. split; [|split].
  - intros Hs. unfold Service.constructor. cbn [Service.wsUrl or_default append].
    change (String "h" (String "t" (String "t" (String "p"
             (String ":" (String "/" (String "/" h)))))))
      with ("http://" ++ h).
    rewrite (replace_absent "https://" "wss://" ("http://" ++ h)).
    + apply replace_prefix.
    + cbn. exact Hs.
  - intros Hs Hne. unfold Service.constructor. cbn [Service.wsUrl].
    destruct h as [|c h']; [contradiction Hne; reflexivity|].
    cbn [or_default].
    rewrite (replace_absent "https://" "wss://" _ Hs).
    apply replace_absent, Hh.
  - intros video_id st Haw. rewrite E1. unfold step. rewrite Haw.
    reflexivity.
Qed.

(** Instance of X3 at the default root. *)
Lemma constructor_derives_wsUrl_witness :
  Service.wsUrl (Service.constructor None)
  = "wss://boulevard-thorough-lives-cuts.trycloudflare.com".
Proof.
  pose proof (proj1 (constructor_derives_wsUrl
                       "boulevard-thorough-lives-cuts.trycloudflare.com" eq_refl)) as H.
  exact H.
Defined.

(** X4: [getApiUrl] and [getWsUrl] put exactly one "/" between the root and
    an endpoint written without a leading "/", and none in front of an
    endpoint that has one, so both spellings of an endpoint give the same
    URL. *)
Theorem getUrl_normalises_slash (isDevelopment : bool) (endpoint : string) :
  getApiUrl isDevelopment ("/" ++ endpoint)
    = API_BASE_URL (CONFIG isDevelopment) ++ "/" ++ endpoint /\
  getWsUrl isDevelopment ("/" ++ endpoint)
    = WS_BASE_URL (CONFIG isDevelopment) ++ "/" ++ endpoint /\
  (prefix "/" endpoint = false ->
   getApiUrl isDevelopment endpoint = getApiUrl isDevelopment ("/" ++ endpoint) /\
   getWsUrl isDevelopment endpoint = getWsUrl isDevelopment ("/" ++ endpoint)).
Proof.
  assert (Hp : prefix "/" ("/" ++ endpoint) = true) by apply prefix_app.
  unfold getApiUrl, getWsUrl. rewrite Hp.
  split; [reflexivity|]. split; [reflexivity|].
  intros Hn. rewrite Hn. split; reflexivity.
Qed.

(** Instance of X4 at the endpoint of the upload. *)
Lemma getUrl_normalises_slash_witness :
  getApiUrl true "upload/" = getApiUrl true "/upload/".
Proof.
  exact (proj1 (proj2 (proj2 (getUrl_normalises_slash true "upload/")) eq_refl)).
Defined.

(** ** [App.processVideo] and [ResultSlide] *)

Lemma handleResult_truthy (finalResult r : jsonValue) :
  App.handleResult finalResult = Fulfilled r -> truthy (Value r) = true.
Proof.
  unfold App.handleResult.
  destruct (get finalResult "result") as [res|]; [|discriminate].
  destruct (truthy res); [|intros H; inversion H; reflexivity].
  destruct (is_string (optional_get res "status") "completed"
            && truthy (optional_get (optional_get res "prediction") "class_name"))
    eqn:Hc.
  - apply andb_true_iff in Hc. destruct Hc as [_ Ht].
    destruct (optional_get (optional_get res "prediction") "class_name") as [|c];
      [discriminate Ht|].
    intros H. inversion H; subst. exact Ht.
  - destruct (is_string (optional_get res "status") "error").
    + destruct (if truthy (optional_get res "error")
                then template (optional_get res "error")
                else Some "Unknown error");
        intros H; inversion H; reflexivity.
    + intros H; inversion H; reflexivity.
Qed.

(** X5: whatever the health probe and the workflow answer,
    [App.processVideo] ends on the result slide (slide 3) with the
    uploading flag off and a result that is neither [null] nor empty, and
    keeps the selected video. *)
Theorem App_always_shows_a_result
    (health : fetchOutcome) (progress : list Q) (workflow : settlement jsonValue)
    (s : App.State) :
  let s' := fst (App.processVideo health progress workflow s) in
  App.currentSlide s' = 3 /\
  App.isUploading s' = false /\
  truthy (Value (App.result s')) = true /\
  App.selectedVideo s' = App.selectedVideo s.
Proof.
  assert (Hsel : forall l t,
            App.selectedVideo (fold_left (fun s p => App.setUploadProgress p s) l t)
            = App.selectedVideo t).
  { induction l as [|p l IH]; intros t; simpl; [reflexivity | rewrite IH; reflexivity]. }
  unfold App.processVideo.
  destruct (checkServerHealth health) as [h | m]; [|repeat split].
  destruct (isHealthy h); simpl negb; cbv iota; [|repeat split].
  destruct workflow as [v | m]; [|repeat split; simpl; rewrite Hsel; reflexivity].
  destruct (App.handleResult v) as [r | m] eqn:Hr.
  - repeat split; simpl;
      [exact (handleResult_truthy v r Hr) | rewrite Hsel; reflexivity].
  - repeat split; simpl; rewrite Hsel; reflexivity.
Qed.

(** X6: [App.processVideo] starts the upload workflow exactly when the
    health request answered 2xx with a body that parses; otherwise it
    calls [apiService.processVideo] not at all, resets the progress to 0
    and shows "Connection Error: Server not available: ..." with the
    message of the probe. *)
Theorem App_uploads_only_when_healthy
    (health : fetchOutcome) (progress : list Q) (workflow : settlement jsonValue)
    (s : App.State) :
  let out := App.processVideo health progress workflow s in
  (snd out = true <->
     exists r v, health = FetchResolves r /\ ok r = true /\ json r = inr v) /\
  (snd out = false ->
     exists h m, checkServerHealth health = Fulfilled h /\ error h = Some m /\
       App.result (fst out) = JStr ("Connection Error: Server not available: " ++ m) /\
       App.uploadProgress (fst out) = 0%Q).
Proof.
  unfold App.processVideo, checkServerHealth, Health.try_block, Health.catch_block.
  destruct health as [m | r].
  - simpl. split; [split|].
    + discriminate.
    + intros (r & v & H & _). discriminate H.
    + intros _. eexists. eexists. repeat split.
  - destruct (ok r) eqn:Hok; [destruct (json r) as [m | v] eqn:Hj|]; simpl.
    + split; [split|].
      * discriminate.
      * intros (r' & v & H & _ & Hj'). inversion H; subst. congruence.
      * intros _. eexists. eexists. repeat split.
    + split; [split|].
      * intros _. exists r, v. auto.
      * intros _. destruct workflow as [w | m]; [|reflexivity].
        destruct (App.handleResult w); reflexivity.
      * destruct workflow as [w | m]; [|discriminate].
        destruct (App.handleResult w); discriminate.
    + split; [split|].
      * discriminate.
      * intros (r' & v & H & Hok' & _). inversion H; subst. congruence.
      * intros _. eexists. eexists. repeat split.
Qed.

(** Instance of X6 at an unreachable server. *)
Lemma App_uploads_only_when_healthy_witness :
  let out := App.processVideo (FetchRejects "Network request failed") []
               (Rejected "unused") (App.mk 2 (Some "file://v.mp4") 0 true JNull) in
  snd out = false /\
  App.result (fst out)
  = JStr "Connection Error: Server not available: Network request failed".
Proof.
  intros out. split; [reflexivity|].
  destruct (proj2 (App_uploads_only_when_healthy (FetchRejects "Network request failed") []
                     (Rejected "unused") (App.mk 2 (Some "file://v.mp4") 0 true JNull))
                  eq_refl) as (h & m & E & Em & Hres & _).
  vm_compute in E. inversion E; subst h. vm_compute in Em. inversion Em; subst m.
  exact Hres.
Defined.

Lemma isError_of_Error (a b : string) :
  ResultSlide.isError (JStr (a ++ "Error:" ++ b)) = Some true.
Proof.
  unfold ResultSlide.isError. cbn [ResultSlide.resultString].
  rewrite includes_infix. reflexivity.
Qed.

(** X7: every text that [App.processVideo] shows for a failure is
    classified as an error by [ResultSlide]: the "Connection Error: ..."
    of the [catch] block (unhealthy server, rejected workflow), the
    "Processing Error: ..." of a result of status 'error', and "Processing
    incomplete"; the slide then shows the retry subtitle and not the
    success one. *)
Theorem failures_are_shown_as_errors
    (health : fetchOutcome) (progress : list Q) (workflow : settlement jsonValue)
    (s : App.State) :
  let out := App.processVideo health progress workflow s in
  (snd out = false \/ (exists m, workflow = Rejected m) ->
     ResultSlide.isError (App.result (fst out)) = Some true /\
     ResultSlide.isSuccess (App.result (fst out)) = Some false /\
     ResultSlide.subtitle (App.result (fst out))
     = Some "There was an issue processing your video. Please try again.") /\
  (forall e, ResultSlide.isError (JStr ("Processing Error: " ++ e)) = Some true) /\
  ResultSlide.isError (JStr "Processing incomplete") = Some true.
Proof.
  assert (Hconn : forall m t,
            let r := App.result (App.catch_block m t) in
            ResultSlide.isError r = Some true /\ ResultSlide.isSuccess r = Some false /\
            ResultSlide.subtitle r
            = Some "There was an issue processing your video. Please try again.").
  { intros m t r. subst r. cbn [App.catch_block App.goToSlide App.setCurrentSlide
                                App.setResult App.result].
    assert (E : ResultSlide.isError (JStr ("Connection Error: " ++ m)) = Some true).
    { exact (isError_of_Error "Connection " (" " ++ m)). }
    unfold ResultSlide.subtitle, ResultSlide.isSuccess. rewrite E.
    rewrite andb_false_r. auto. }
  split; [|split].
  - unfold App.processVideo.
    destruct (checkServerHealth health) as [h | m]; [|intros _; apply Hconn].
    destruct (isHealthy h); simpl negb; cbv iota; [|intros _; apply Hconn].
    destruct workflow as [v | m]; [|intros _; apply Hconn].
    destruct (App.handleResult v) as [r | m]; [|intros _; apply Hconn].
    intros [H | [m H]]; discriminate H.
  - intros e. exact (isError_of_Error "Processing " (" " ++ e)).
  - reflexivity.
Qed.

(** Instance of X7 at a workflow rejected by the overall timer. *)
Lemma failures_are_shown_as_errors_witness :
  ResultSlide.isError
    (App.result (fst (App.processVideo
       (FetchResolves (mkResponse 200 "OK" "" (inr (JObj []))))
       [10%Q; 30%Q] (Rejected "Overall processing timeout (3 minutes)")
       (App.mk 2 None 0 true JNull))))
  = Some true.
Proof.
  exact (proj1 (proj1 (failures_are_shown_as_errors
     (FetchResolves (mkResponse 200 "OK" "" (inr (JObj []))))
     [10%Q; 30%Q] (Rejected "Overall processing timeout (3 minutes)")
     (App.mk 2 None 0 true JNull))
     (or_intror (ex_intro _ "Overall processing timeout (3 minutes)" eq_refl)))).
Defined.

(** ** [DebugStore] *)

Lemma addLog_logs (e : DebugStore.LogEntry) (s : DebugStore.Store) :
  DebugStore.logs (DebugStore.addLog e s) = firstn 100 (e :: DebugStore.logs s).
Proof.
  unfold DebugStore.addLog, DebugStore.notifyListeners. cbn [DebugStore.logs].
  destruct (100 <? Z.of_nat (List.length (e :: DebugStore.logs s))) eqn:H;
    [reflexivity|].
  apply Z.ltb_ge in H. symmetry. apply firstn_all2. lia.
Qed.

(** X8: the store never holds more than 100 entries, whatever sequence of
    [addLog], [subscribe], unsubscribe and [clearLogs] calls is made. *)
Theorem DebugStore_holds_at_most_100 (ops : list DebugStore.op) :
  (List.length (DebugStore.getLogs (DebugStore.run ops DebugStore.empty)) <= 100)%nat.
Proof.
  unfold DebugStore.getLogs.
  assert (H : forall s, (List.length (DebugStore.logs s) <= 100)%nat ->
                        (List.length (DebugStore.logs (DebugStore.run ops s)) <= 100)%nat).
  { induction ops as [|o ops IH]; intros s Hs; [exact Hs|].
    simpl DebugStore.run. apply IH.
    destruct o as [e | l | l |]; cbn [DebugStore.apply].
    - rewrite addLog_logs. rewrite length_firstn. lia.
    - exact Hs.
    - exact Hs.
    - simpl. lia. }
  apply H. simpl. lia.
Qed.

Lemma firstn_app_firstn {A : Type} (n m : nat) (a b : list A) :
  (n <= List.length a + m)%nat ->
  firstn n (a ++ firstn m b)%list = firstn n (a ++ b)%list.
Proof.
  revert n. induction a as [|x a IH]; intros n Hn; simpl in *.
  - rewrite firstn_firstn. f_equal. lia.
  - destruct n as [|n]; [reflexivity|]. simpl. f_equal. apply IH. lia.
Qed.

(** X9: after entries have been added one after the other, the store
    holds the newest 100 of the entries it then knows, newest first: the
    added ones in reverse order of addition, followed by the older ones. *)
Theorem DebugStore_keeps_newest_first
    (entries : list DebugStore.LogEntry) (s : DebugStore.Store) :
  (List.length (DebugStore.logs s) <= 100)%nat ->
  DebugStore.getLogs (DebugStore.run (map DebugStore.AddLog entries) s)
  = firstn 100 (rev entries ++ DebugStore.logs s)%list.
Proof.
  unfold DebugStore.getLogs. revert s.
  induction entries as [|e entries IH]; intros s Hs.
  - cbn [map DebugStore.run fold_left rev app]. symmetry. apply firstn_all2. exact Hs.
  - change (DebugStore.run (map DebugStore.AddLog (e :: entries)) s)
      with (DebugStore.run (map DebugStore.AddLog entries) (DebugStore.addLog e s)).
    rewrite IH.
    + rewrite addLog_logs. cbn [rev]. rewrite <- app_assoc. cbn [app].
      apply firstn_app_firstn. lia.
    + rewrite addLog_logs, length_firstn. lia.
Qed.

(** Instance of X9: two entries added to the empty store. *)
Lemma DebugStore_keeps_newest_first_witness :
  let e1 := DebugStore.mkEntry "1" "t1" DebugStore.log "API" "first" Undefined in
  let e2 := DebugStore.mkEntry "2" "t2" DebugStore.error "WS" "second" Undefined in
  DebugStore.getLogs
    (DebugStore.run [DebugStore.AddLog e1; DebugStore.AddLog e2] DebugStore.empty)
  = [e2; e1].
Proof.
  intros e1 e2.
  exact (DebugStore_keeps_newest_first [e1; e2] DebugStore.empty (Nat.le_0_l 100)).
Defined.

Lemma received_notify (l : nat) (s : DebugStore.Store) :
  ~ In l (DebugStore.listeners s) ->
  DebugStore.received l (DebugStore.notifyListeners s) = DebugStore.received l s.
Proof.
  unfold DebugStore.received, DebugStore.notifyListeners. cbn [DebugStore.delivered
    DebugStore.logs DebugStore.listeners].
  intros Hn. rewrite filter_app, map_app.
  assert (E : filter (fun d : nat * list DebugStore.LogEntry => Nat.eqb (fst d) l)
                (map (fun listener => (listener, DebugStore.logs s))
                     (DebugStore.listeners s)) = []).
  { induction (DebugStore.listeners s) as [|x ls IH]; [reflexivity|].
    simpl. destruct (Nat.eqb_spec x l) as [->|Hne].
    - exfalso. apply Hn. left. reflexivity.
    - apply IH. intros Hin. apply Hn. right. exact Hin. }
  rewrite E. simpl. apply app_nil_r.
Qed.

(** X10: once a listener has been unsubscribed it is called no more,
    however often it had been subscribed, as long as it is not subscribed
    again: whatever [addLog] and [clearLogs] calls follow, the calls it
    has received stay the ones it had received before. *)
Theorem DebugStore_unsubscribed_listener_is_silent
    (listener : nat) (ops : list DebugStore.op) (s : DebugStore.Store) :
  ~ In (DebugStore.Subscribe listener) ops ->
  let s' := DebugStore.run ops (DebugStore.unsubscribe listener s) in
  ~ In listener (DebugStore.listeners s') /\
  DebugStore.received listener s' = DebugStore.received listener s.
Proof.
  intros Hops s'. subst s'.
  assert (H0 : ~ In listener (DebugStore.listeners (DebugStore.unsubscribe listener s))).
  { unfold DebugStore.unsubscribe. cbn [DebugStore.listeners].
    intros Hin. apply filter_In in Hin. destruct Hin as [_ Hin].
    rewrite Nat.eqb_refl in Hin. discriminate Hin. }
  assert (R0 : DebugStore.received listener (DebugStore.unsubscribe listener s)
               = DebugStore.received listener s) by reflexivity.
  rewrite <- R0. clear R0.
  generalize dependent (DebugStore.unsubscribe listener s). clear s.
  induction ops as [|o ops IH]; intros t Ht; [split; [exact Ht | reflexivity]|].
  simpl DebugStore.run.
  assert (Hops' : ~ In (DebugStore.Subscribe listener) ops).
  { intros Hin. apply Hops. right. exact Hin. }
  assert (Hstep : ~ In listener (DebugStore.listeners (DebugStore.apply o t)) /\
                  DebugStore.received listener (DebugStore.apply o t)
                  = DebugStore.received listener t).
  { destruct o as [e | l | l |]; cbn [DebugStore.apply].
    - split; [exact Ht|]. unfold DebugStore.addLog.
      rewrite received_notify; [reflexivity | exact Ht].
    - split; [|reflexivity]. intros Hin. apply in_app_or in Hin.
      destruct Hin as [Hin | [-> | []]]; [exact (Ht Hin)|].
      apply Hops. left. reflexivity.
    - split; [|reflexivity]. intros Hin. apply filter_In in Hin.
      apply Ht, Hin.
    - split; [exact Ht|]. unfold DebugStore.clearLogs.
      rewrite received_notify; [reflexivity | exact Ht]. }
  destruct Hstep as [Hl Hr].
  destruct (IH Hops' _ Hl) as [IH1 IH2].
  split; [exact IH1 | rewrite IH2; exact Hr].
Qed.

(** Instance of X10: a listener subscribed twice, then unsubscribed. *)
Lemma DebugStore_unsubscribed_listener_is_silent_witness :
  let e := DebugStore.mkEntry "1" "t1" DebugStore.log "API" "first" Undefined in
  let s := DebugStore.subscribe 7 (DebugStore.subscribe 7 DebugStore.empty) in
  DebugStore.received 7
    (DebugStore.run [DebugStore.AddLog e; DebugStore.ClearLogs]
                    (DebugStore.unsubscribe 7 s))
  = [].
Proof.
  intros e s.
  refine (proj2 (DebugStore_unsubscribed_listener_is_silent 7
                   [DebugStore.AddLog e; DebugStore.ClearLogs] s _)).
  intros [H | [H | []]]; discriminate H.
Defined.

(** ** Invariants of the live status channel *)

Lemma count_app {A : Type} (f : A -> bool) (l : list A) (a : A) :
  count f (l ++ [a])%list = (count f l + (if f a then 1 else 0))%nat.
Proof.
  unfold count. rewrite filter_app, length_app. simpl. destruct (f a); reflexivity.
Qed.

Ltac channel_cases st e :=
  destruct st as [? [? ? ? ? ? ? ?]];
  destruct e as [| [?|?] | | ? | ? [|]];
  unfold handle, onopen, onmessage, onerror, onclose, ontimer, connect, callError,
    maxReconnectAttempts;
  cbn [fst snd ws isConnected reconnectAttempts messageCount timers actions wsUrl
       set_ws set_isConnected set_reconnectAttempts set_messageCount set_timers act].

Lemma length_remove_nth {A : Type} (i : nat) (l : list A) (x : A) :
  nth_error l i = Some x -> S (List.length (remove_nth i l)) = List.length l.
Proof.
  revert i. induction l as [|y l IH]; intros [|i] H; simpl in *; try discriminate.
  - reflexivity.
  - rewrite (IH i H). reflexivity.
Qed.

Lemma handle_channelInv
    {Caller : Type} (onStatusUpdate : jsonValue -> Caller -> Caller * completion)
    (onError : string -> Caller -> Caller) (url : string)
    (e : wsEvent) (st : Caller * ChannelSession) :
  channelInv url (snd st) ->
  channelInv url (snd (handle onStatusUpdate onError e st)).
Proof.
  unfold channelInv. intros (Hr & Hc & Hu & Hf & Hn).
  channel_cases st e; cbn [fst snd ws isConnected reconnectAttempts messageCount
                           timers actions wsUrl] in *;
  repeat match goal with
         | |- context [match ?w with Some _ => _ | None => _ end] =>
             destruct w eqn:?
         | |- context [let (_, _) := ?p in _] => destruct p as [? [|]]
         | |- context [if ?b then _ else _] => destruct b eqn:?
         end;
  cbn [fst snd ws isConnected reconnectAttempts messageCount timers actions wsUrl
       set_ws set_isConnected set_reconnectAttempts set_messageCount set_timers act] in *;
  rewrite ?count_app, ?length_app; cbn [isNewWebSocket isSetTimeout List.length];
  repeat split; try assumption; try discriminate; try lia;
  try (repeat rewrite Forall_app; repeat split; try assumption;
       repeat constructor; assumption);
  try (intros; congruence);
  try (apply andb_true_iff in Heqb; destruct Heqb as [_ Hlt];
       apply Z.ltb_lt in Hlt; lia);
  try (erewrite <- (length_remove_nth _ _ _ Heqo) in Hn; lia).
Qed.

Lemma runChannel_channelInv
    {Caller : Type} (onStatusUpdate : jsonValue -> Caller -> Caller * completion)
    (onError : string -> Caller -> Caller) (url : string)
    (evs : list wsEvent) (st : Caller * ChannelSession) :
  channelInv url (snd st) ->
  channelInv url (snd (runChannel onStatusUpdate onError evs st)).
Proof.
  revert st. induction evs as [|e evs IH]; intros st H; [exact H|].
  apply IH, handle_channelInv, H.
Qed.

Lemma connectToProcessing_channelInv
    {Caller : Type} (onError : string -> Caller -> Caller) (url : string)
    (construct : completion) (c : Caller) :
  channelInv url (snd (connectToProcessing onError url construct c)).
Proof.
  unfold channelInv. destruct construct; simpl; repeat split;
    try lia; try discriminate; repeat constructor.
Qed.

Lemma channel_session_invariants_aux
    {Caller : Type} (onStatusUpdate : jsonValue -> Caller -> Caller * completion)
    (onError : string -> Caller -> Caller) (url : string)
    (construct : completion) (c : Caller) (evs : list wsEvent) :
  channelInv url (snd (runChannel onStatusUpdate onError evs
                         (connectToProcessing onError url construct c))).
Proof.
  exact (runChannel_channelInv onStatusUpdate onError url evs _
           (connectToProcessing_channelInv onError url construct c)).
Qed.

(** X11: in every run of a channel session, whatever events arrive: the
    reconnection counter stays between 0 and 3; a channel that is marked
    connected has a socket; every socket is opened at the URL of the
    session; and the sockets opened and the reconnections still pending
    never outnumber the first connection plus the reconnections scheduled. *)
Theorem channel_session_invariants
    {Caller : Type} (onStatusUpdate : jsonValue -> Caller -> Caller * completion)
    (onError : string -> Caller -> Caller) (url : string)
    (construct : completion) (c : Caller) (evs : list wsEvent) :
  let ch := snd (runChannel onStatusUpdate onError evs
                   (connectToProcessing onError url construct c)) in
  0 <= reconnectAttempts ch <= maxReconnectAttempts /\
  (isConnected ch = true -> ws ch <> None) /\
  wsUrl ch = url /\
  Forall (opensAt url) (actions ch) /\
  (count isNewWebSocket (actions ch) + List.length (timers ch)
   <= 1 + count isSetTimeout (actions ch))%nat.
Proof.
  exact (channel_session_invariants_aux onStatusUpdate onError url construct c evs).
Qed.

Lemma handle_counts_attempts
    {Caller : Type} (onStatusUpdate : jsonValue -> Caller -> Caller * completion)
    (onError : string -> Caller -> Caller)
    (e : wsEvent) (st : Caller * ChannelSession) :
  isOnOpen e = false ->
  Z.of_nat (count isSetTimeout (actions (snd st))) = reconnectAttempts (snd st) ->
  Z.of_nat (count isSetTimeout (actions (snd (handle onStatusUpdate onError e st))))
  = reconnectAttempts (snd (handle onStatusUpdate onError e st)).
Proof.
  intros He H.
  channel_cases st e; try discriminate He;
  cbn [fst snd ws isConnected reconnectAttempts messageCount
       timers actions wsUrl] in *;
  repeat match goal with
         | |- context [match ?w with Some _ => _ | None => _ end] =>
             destruct w eqn:?
         | |- context [let (_, _) := ?p in _] => destruct p as [? [|]]
         | |- context [if ?b then _ else _] => destruct b eqn:?
         end;
  cbn [fst snd ws isConnected reconnectAttempts messageCount timers actions wsUrl
       set_ws set_isConnected set_reconnectAttempts set_messageCount set_timers act] in *;
  rewrite ?count_app; cbn [isSetTimeout]; lia.
Qed.

(** X12: as long as no socket opens successfully, a channel session
    schedules at most 3 reconnections (the counter counts them) and opens
    at most 4 sockets in all. *)
Theorem at_most_three_reconnections_without_open
    {Caller : Type} (onStatusUpdate : jsonValue -> Caller -> Caller * completion)
    (onError : string -> Caller -> Caller) (url : string)
    (construct : completion) (c : Caller) (evs : list wsEvent) :
  existsb isOnOpen evs = false ->
  let ch := snd (runChannel onStatusUpdate onError evs
                   (connectToProcessing onError url construct c)) in
  Z.of_nat (count isSetTimeout (actions ch)) = reconnectAttempts ch /\
  (count isSetTimeout (actions ch) <= 3)%nat /\
  (count isNewWebSocket (actions ch) <= 4)%nat.
Proof.
  intros Hev ch.
  assert (K : Z.of_nat (count isSetTimeout (actions ch)) = reconnectAttempts ch).
  { subst ch.
    assert (K0 : Z.of_nat (count isSetTimeout
                   (actions (snd (connectToProcessing onError url construct c))))
                 = reconnectAttempts (snd (connectToProcessing onError url construct c))).
    { destruct construct; reflexivity. }
    revert K0 Hev. generalize (connectToProcessing onError url construct c).
    induction evs as [|e evs IH]; intros st K0 Hev; [exact K0|].
    simpl in Hev. apply orb_false_iff in Hev. destruct Hev as [He Hev].
    apply IH; [|exact Hev]. apply handle_counts_attempts; assumption. }
  destruct (channel_session_invariants_aux onStatusUpdate onError url construct c evs)
    as (Hr & _ & _ & _ & Hn).
  fold ch in Hr, Hn. unfold maxReconnectAttempts in Hr.
  split; [exact K|]. split; lia.
Qed.

(** Instance of X12: three abnormal closes, each followed by the expiry of
    its reconnection timer. *)
Lemma at_most_three_reconnections_without_open_witness :
  let evs := [OnClose 1006; OnTimer 0 Normal; OnClose 1006; OnTimer 0 Normal;
              OnClose 1006; OnTimer 0 Normal; OnClose 1006] in
  reconnectAttempts
    (snd (runChannel (statusCallback 0) errorCallback evs
            (connectToProcessing errorCallback "u" Normal (fst processVideo))))
  = 3.
Proof.
  intros evs.
  destruct (at_most_three_reconnections_without_open (statusCallback 0) errorCallback "u"
              Normal (fst processVideo) evs eq_refl) as (K & _ & _).
  rewrite <- K. vm_compute. reflexivity.
Defined.

(** Instance of X11: a socket that opened, after one failed attempt. *)
Lemma channel_session_invariants_witness :
  let evs := [OnClose 1006; OnTimer 0 Normal; OnOpen] in
  ws (snd (runChannel (statusCallback 0) errorCallback evs
             (connectToProcessing errorCallback "u" Normal (fst processVideo))))
  <> None.
Proof.
  intros evs.
  destruct (channel_session_invariants (statusCallback 0) errorCallback "u" Normal
              (fst processVideo) evs) as (_ & H & _).
  apply H. vm_compute. reflexivity.
Defined.

(** ** Invariants of the orchestrator *)

Lemma handle_ownClose
    {Caller : Type} (onStatusUpdate : jsonValue -> Caller -> Caller * completion)
    (onError : string -> Caller -> Caller)
    (e : wsEvent) (st : Caller * ChannelSession) :
  Forall ownClose (actions (snd st)) ->
  Forall ownClose (actions (snd (handle onStatusUpdate onError e st))).
Proof.
  intros H.
  channel_cases st e;
  cbn [fst snd ws isConnected reconnectAttempts messageCount
       timers actions wsUrl] in *;
  repeat match goal with
         | |- context [match ?w with Some _ => _ | None => _ end] =>
             destruct w eqn:?
         | |- context [let (_, _) := ?p in _] => destruct p as [? [|]]
         | |- context [if ?b then _ else _] => destruct b eqn:?
         end;
  cbn [fst snd ws isConnected reconnectAttempts messageCount timers actions wsUrl
       set_ws set_isConnected set_reconnectAttempts set_messageCount set_timers act] in *;
  try assumption;
  repeat rewrite Forall_app; repeat split; try assumption;
  repeat constructor.
Qed.

(** The callbacks that [processVideo] gives to the channel leave the
    variables of the race and [wsCleanup] alone. *)
Lemma callbacks_keep_race (w0 : Workflow) (e : wsEvent) (rnd : Q)
    (st : Workflow * ChannelSession) :
  (awaiting (fst st) = awaiting w0 /\ uploadTimer (fst st) = uploadTimer w0 /\
   wsCleanup (fst st) = wsCleanup w0) ->
  let w' := fst (handle (statusCallback rnd) errorCallback e st) in
  awaiting w' = awaiting w0 /\ uploadTimer w' = uploadTimer w0 /\
  wsCleanup w' = wsCleanup w0.
Proof.
  intros H.
  apply (handle_preserves
           (fun w => awaiting w = awaiting w0 /\ uploadTimer w = uploadTimer w0 /\
                     wsCleanup w = wsCleanup w0)); [| |exact H].
  - intros d [t u sch a c p l] Hw. unfold statusCallback.
    destruct (get d "status") as [s|]; [|exact Hw].
    destruct (is_string s "processing"); [exact Hw|].
    destruct (is_string s "done");
      [unfold_ops; simpl in *; destruct t, p; exact Hw|].
    destruct (is_string s "timeout");
      [unfold_ops; simpl in *; destruct t, p; exact Hw|].
    destruct (is_string s "error");
      [unfold_ops; simpl in *; destruct t, p; exact Hw | exact Hw].
  - intros m [t u sch a c p l] Hw. unfold errorCallback. unfold_ops. simpl in *.
    destruct t, p; exact Hw.
Qed.

Lemma sameRace_fail (m : string) (w : Workflow) :
  sameRace w (reject m (clearTimeout w)).
Proof.
  destruct w as [t u sch a c p l]. unfold sameRace. unfold_ops. simpl.
  destruct t, p; simpl; auto.
Qed.

Lemma sameRace_report (s : string) (q : Q) (w : Workflow) :
  sameRace w (onStatusUpdate s (onProgress q w)).
Proof. destruct w. unfold sameRace. simpl. auto. Qed.

Lemma catch_block_fst (m : string) (st : State) :
  fst (catch_block m st) = reject m (clearTimeout (fst st)).
Proof. reflexivity. Qed.

Lemma catch_block_snd_None (m : string) (w : Workflow) :
  snd (catch_block m (w, None)) = None.
Proof. unfold catch_block. cbn [fst snd]. destruct (wsCleanup _); reflexivity. Qed.

Lemma Inv2_no_channel (w : Workflow) :
  awaiting w = false -> wsCleanup w = false -> Inv2 (w, None).
Proof.
  intros Ha Hc. unfold Inv2. cbn [fst snd]. rewrite Ha, Hc.
  repeat split; try discriminate; auto;
    try (intros H; exfalso; apply H; reflexivity).
Qed.

Lemma catch_block_Inv2 (m : string) (w : Workflow) :
  awaiting w = false -> wsCleanup w = false ->
  Inv2 (catch_block m (w, None)).
Proof.
  intros Ha Hc.
  destruct (sameRace_fail m w) as (Ka & _ & Kc).
  rewrite (surjective_pairing (catch_block m (w, None))).
  rewrite catch_block_snd_None, catch_block_fst. cbn [fst].
  apply Inv2_no_channel; congruence.
Qed.

Lemma resume_Inv2 (url : string) (v : jsonValue) (k : completion) (w : Workflow) :
  awaiting w = false -> wsCleanup w = false ->
  Inv2 (resume url v k (w, None)).
Proof.
  intros Ha Hc. unfold resume. cbn [fst snd].
  destruct (get v "status") as [s|]; [|apply catch_block_Inv2; assumption].
  destruct (negb (is_string s "received"));
    [destruct (template s); apply catch_block_Inv2; assumption|].
  destruct (sameRace_report "Video uploaded, starting analysis..." 30 w)
    as (Ka & Ku & Kc).
  destruct (get v "video_id") as [video_id|];
    [|apply catch_block_Inv2; assumption].
  destruct (template video_id) as [videoId|];
    [|apply catch_block_Inv2; assumption].
  set (w2 := onStatusUpdate "Video uploaded, starting analysis..." (onProgress 30 w))
    in *.
  set (u := url ++ "/ws/" ++ videoId).
  assert (Hw : forall w', sameRace w2 w' ->
                 forall ch, Forall ownClose (actions ch) ->
                 Inv2 (set_wsCleanup true w', Some ch)).
  { intros w' (Ja & Ju & Jc) ch Hf. unfold Inv2. cbn [fst snd].
    assert (E1 : awaiting (set_wsCleanup true w') = false)
      by (destruct w'; simpl in *; congruence).
    assert (E2 : wsCleanup (set_wsCleanup true w') = true) by (destruct w'; reflexivity).
    rewrite E1, E2. repeat split; try discriminate; auto.
    intros ch0 E. inversion E; subst. exact Hf. }
  unfold connectToProcessing, connect, callError. destruct k; cbn [fst snd].
  - apply Hw; [unfold sameRace; auto|]. simpl. repeat constructor.
  - apply Hw; [apply sameRace_fail|]. simpl. repeat constructor.
Qed.

Lemma step_Inv2 (url : string) (e : event) (st : State) :
  Inv2 st -> Inv2 (step url e st).
Proof.
  intros Hinv. pose proof Hinv as (H1 & H2 & H3 & H4).
  destruct st as [w o]. cbn [fst snd] in H1, H2, H3, H4.
  assert (Hnone : awaiting w = true -> o = None /\ wsCleanup w = false).
  { intros Ha. pose proof (H2 Ha) as Ho. split; [exact Ho|].
    destruct (wsCleanup w); [|reflexivity].
    exfalso. apply (proj1 H3 eq_refl). exact Ho. }
  destruct e as [f k | | | e rnd]; unfold step; cbn [fst snd].
  - destruct (awaiting w) eqn:Ha; [|exact Hinv].
    destruct (Hnone eq_refl) as [-> Hc].
    assert (Ha' : awaiting (set_awaiting false w) = false) by (destruct w; reflexivity).
    assert (Hc' : wsCleanup (set_awaiting false w) = false) by (destruct w; exact Hc).
    destruct (uploadVideo f) as [v | m];
      [apply resume_Inv2 | apply catch_block_Inv2]; assumption.
  - destruct (uploadTimer w) eqn:Hu; try exact Hinv.
    destruct (awaiting (set_uploadTimer Fired w)) eqn:Ha.
    + assert (Ha' : awaiting w = true) by (destruct w; exact Ha).
      destruct (Hnone Ha') as [-> Hc].
      apply catch_block_Inv2; destruct w; [reflexivity | exact Hc].
    + assert (Ha' : awaiting w = false) by (destruct w; exact Ha).
      unfold Inv2. cbn [fst snd]. rewrite Ha.
      assert (Hc : wsCleanup (set_uploadTimer Fired w) = wsCleanup w)
        by (destruct w; reflexivity).
      rewrite Hc. repeat split; auto; try apply H3. intros Hx. discriminate Hx.
  - destruct (timeoutId w) eqn:Ht; try exact Hinv.
    assert (K : sameRace w (reject "Overall processing timeout (3 minutes)"
                              (set_timeoutId Fired w))).
    { destruct w as [t u sch a c p l]. unfold sameRace. unfold_ops. simpl.
      destruct p; simpl; auto. }
    destruct K as (Ka & Ku & Kc). unfold Inv2. cbn [fst snd].
    rewrite Ka, Ku, Kc. repeat split; auto; apply H3.
  - destruct o as [ch|]; [|exact Hinv].
    pose proof (callbacks_keep_race w e rnd (w, ch) (conj eq_refl (conj eq_refl eq_refl)))
      as (Ka & Ku & Kc).
    pose proof (handle_ownClose (statusCallback rnd) errorCallback e (w, ch)
                  (H4 ch eq_refl)) as Kf.
    destruct (handle (statusCallback rnd) errorCallback e (w, ch)) as [w' ch'].
    cbn [fst snd] in *. unfold Inv2. cbn [fst snd].
    rewrite Ka, Ku, Kc. repeat split.
    + exact H1.
    + intros Ha. discriminate (H2 Ha).
    + discriminate.
    + intros _. apply H3. discriminate.
    + intros ch0 E. inversion E; subst. exact Kf.
Qed.

Lemma run_Inv2 (url : string) (evs : list event) :
  Inv2 (run url evs processVideo).
Proof.
  assert (H : forall st, Inv2 st -> Inv2 (run url evs st)).
  { induction evs as [|e evs IH]; intros st Hst; [exact Hst|].
    simpl. apply IH, step_Inv2, Hst. }
  apply H. unfold Inv2. simpl. repeat split; try discriminate; auto.
  intros H0. exfalso. apply H0. reflexivity.
Qed.

(** X13: a frame that cannot be read (text that does not parse, or the
    JSON value [null]) fails the workflow: the promise, if still pending,
    is rejected with "Failed to parse server response" and the overall
    timer is cancelled; but the channel makes no close: it stays as
    connected as it was, with the same socket and timers. *)
Theorem unreadable_frame_rejects_but_keeps_socket
    (url : string) (rnd : Q) (w : Workflow) (ch : ChannelSession) (socket : nat)
    (d : string + jsonValue) :
  ws ch = Some socket ->
  (exists m, d = inl m) \/ d = inr JNull ->
  let st' := step url (Socket (OnMessage d) rnd) (w, Some ch) in
  promise (fst st')
  = Some (match promise w with
          | Some s => s
          | None => Rejected "Failed to parse server response"
          end) /\
  timeoutId (fst st') <> Pending /\
  exists ch' pre,
    snd st' = Some ch' /\
    isConnected ch' = isConnected ch /\ ws ch' = ws ch /\ timers ch' = timers ch /\
    messageCount ch' = messageCount ch + 1 /\
    actions ch'
    = (actions ch ++ pre ++ [ErrorCallback "Failed to parse server response"])%list /\
    (pre = [] \/ pre = [StatusUpdate JNull]).
Proof.
  intros Hws Hd st'. subst st'.
  destruct w as [t u sch a c p l]. destruct ch as [wu wo ic ra mc ti ac].
  simpl in Hws. subst wo.
  destruct Hd as [[m ->] | ->]; unfold step, handle, onmessage, callError, errorCallback;
    cbn [fst snd ws statusCallback get]; unfold_ops; simpl.
  - destruct t, p; simpl; (split; [reflexivity|]); (split; [discriminate|]);
      eexists; exists []; repeat split; auto.
  - destruct t, p; simpl; (split; [reflexivity|]); (split; [discriminate|]);
      eexists; exists [StatusUpdate JNull]; repeat split; auto;
      try (simpl; rewrite <- app_assoc; reflexivity).
Qed.

(** Instance of X13: the text that does not parse arrives on the open
    channel of a workflow that is still pending. *)
Lemma unreadable_frame_rejects_but_keeps_socket_witness :
  let st := run "wss://host" (firstn 2 deadline_trace) processVideo in
  promise (fst (step "wss://host" (Socket (OnMessage (inl "oops")) 0) st))
  = Some (Rejected "Failed to parse server response").
Proof.
  intros st.
  assert (E : st = (fst st, Some (mkSession "wss://host/ws/v1" (Some O) true 0 0 []
                                     [NewWebSocket "wss://host/ws/v1"]))).
  { vm_compute. reflexivity. }
  rewrite E.
  destruct (unreadable_frame_rejects_but_keeps_socket "wss://host" 0 (fst st)
              (mkSession "wss://host/ws/v1" (Some O) true 0 0 []
                         [NewWebSocket "wss://host/ws/v1"]) O (inl "oops") eq_refl
              (or_introl (ex_intro _ "oops" eq_refl))) as [H _].
  exact H.
Defined.

Lemma awaiting_after_upload (url : string) (f : fetchOutcome) (k : completion)
    (st : State) :
  awaiting (fst (step url (UploadSettles f k) st)) = false.
Proof.
  destruct st as [w o]. unfold step. cbn [fst snd].
  destruct (awaiting w) eqn:Ha; [|exact Ha].
  assert (Ha' : awaiting (set_awaiting false w) = false) by (destruct w; reflexivity).
  assert (Hcatch : forall m w1 o1, awaiting w1 = false ->
                     awaiting (fst (catch_block m (w1, o1))) = false).
  { intros m w1 o1 H1. rewrite catch_block_fst. cbn [fst].
    destruct (sameRace_fail m w1) as (Ka & _). congruence. }
  destruct (uploadVideo f) as [v | m]; [|apply Hcatch, Ha'].
  unfold resume. cbn [fst snd].
  destruct (get v "status") as [s|]; [|apply Hcatch, Ha'].
  destruct (negb (is_string s "received"));
    [destruct (template s); apply Hcatch, Ha'|].
  destruct (sameRace_report "Video uploaded, starting analysis..." 30
              (set_awaiting false w)) as (Ka & _).
  destruct (get v "video_id") as [video_id|]; [|apply Hcatch, Ha'].
  destruct (template video_id) as [videoId|]; [|apply Hcatch, Ha'].
  assert (Hset : forall w1, awaiting (set_wsCleanup true w1) = awaiting w1)
    by (intros w1; destruct w1; reflexivity).
  unfold connectToProcessing, connect, callError. destruct k; cbn [fst snd];
    rewrite Hset.
  - congruence.
  - destruct (sameRace_fail "Failed to establish WebSocket connection"
                (onStatusUpdate "Video uploaded, starting analysis..."
                   (onProgress 30 (set_awaiting false w)))) as (Kb & _).
    unfold errorCallback. congruence.
Qed.

Lemma upload_ignored_when_not_awaiting (url : string) (f : fetchOutcome)
    (k : completion) (st : State) :
  awaiting (fst st) = false -> step url (UploadSettles f k) st = st.
Proof. intros H. unfold step. rewrite H. reflexivity. Qed.

Lemma uploadTimer_after_fire (url : string) (st : State) :
  uploadTimer (fst (step url UploadTimerFires st)) <> Pending.
Proof.
  destruct st as [[t u sch a c p l] o]. unfold step. cbn [fst snd uploadTimer].
  destruct u; cbn [fst uploadTimer]; try discriminate.
  unfold catch_block. unfold_ops. cbn [fst snd awaiting timeoutId promise].
  destruct a; [destruct t, p|]; simpl; discriminate.
Qed.

(** X14: the race of step 1 is decided once. In every state a run can
    reach: an upload outcome that arrives after the upload timer has fired
    changes nothing; a second upload outcome changes nothing; and the
    upload timer firing after the upload outcome makes no call, leaves the
    promise as it is and does not touch the channel. *)
Theorem upload_race_is_decided_once
    (url : string) (evs : list event) (f f' : fetchOutcome) (k k' : completion) :
  let st := run url evs processVideo in
  step url (UploadSettles f k) (step url UploadTimerFires st)
  = step url UploadTimerFires st /\
  step url (UploadSettles f' k') (step url (UploadSettles f k) st)
  = step url (UploadSettles f k) st /\
  let st1 := step url (UploadSettles f k) st in
  calls (fst (step url UploadTimerFires st1)) = calls (fst st1) /\
  promise (fst (step url UploadTimerFires st1)) = promise (fst st1) /\
  snd (step url UploadTimerFires st1) = snd st1.
Proof.
  intros st. split; [|split].
  - apply upload_ignored_when_not_awaiting.
    pose proof (step_Inv2 url UploadTimerFires st (run_Inv2 url evs)) as (H1 & _).
    apply H1, uploadTimer_after_fire.
  - apply upload_ignored_when_not_awaiting, awaiting_after_upload.
  - intros st1. pose proof (awaiting_after_upload url f k st) as Ha. fold st1 in Ha.
    unfold step at 1 2 3. destruct (uploadTimer (fst st1)); cbn [fst snd];
      try (repeat split; reflexivity).
    assert (Ha' : awaiting (set_uploadTimer Fired (fst st1)) = false)
      by (destruct (fst st1); exact Ha).
    rewrite Ha'. destruct (fst st1); repeat split; reflexivity.
Qed.

Lemma step_keeps_no_channel (url : string) (e : event) (st : State) :
  snd st = None -> accepted e = false -> snd (step url e st) = None.
Proof.
  intros Hn He. destruct st as [w o]. cbn [snd] in Hn. subst o.
  destruct e as [f k | | | e rnd]; unfold step; cbn [fst snd].
  - destruct (awaiting w); [|reflexivity]. unfold accepted in He.
    destruct (uploadVideo f) as [v | m]; unfold resume, catch_block; cbn [fst snd].
    + destruct (get v "status") as [s|];
        [|destruct (wsCleanup _); reflexivity].
      rewrite He. simpl negb. cbv iota.
      destruct (template s); cbn [fst snd]; destruct (wsCleanup _); reflexivity.
    + destruct (wsCleanup _); reflexivity.
  - destruct (uploadTimer w); try reflexivity.
    destruct (awaiting _); [|reflexivity].
    unfold catch_block. cbn [fst snd]. destruct (wsCleanup _); reflexivity.
  - destruct (timeoutId w); reflexivity.
  - reflexivity.
Qed.

(** X15: [processVideo] creates no WebSocket unless an upload was
    accepted: in a run in which no upload resolves with a body of status
    'received', no channel session exists and [wsCleanup] stays [null]. *)
Theorem no_channel_without_accepted_upload (url : string) (evs : list event) :
  existsb accepted evs = false ->
  snd (run url evs processVideo) = None /\
  wsCleanup (fst (run url evs processVideo)) = false.
Proof.
  intros Hev.
  assert (Hn : snd (run url evs processVideo) = None).
  { assert (H : forall st, snd st = None -> snd (run url evs st) = None).
    { induction evs as [|e evs IH]; intros st Hst; [exact Hst|].
      simpl in Hev. apply orb_false_iff in Hev. destruct Hev as [He Hev].
      simpl. apply (IH Hev), step_keeps_no_channel; assumption. }
    apply H. reflexivity. }
  split; [exact Hn|].
  destruct (run_Inv2 url evs) as (_ & _ & H3 & _).
  destruct (wsCleanup (fst (run url evs processVideo))); [|reflexivity].
  exfalso. apply (proj1 H3 eq_refl). exact Hn.
Qed.

(** Instance of X15: the upload is answered with another status, then
    both timers fire. *)
Lemma no_channel_without_accepted_upload_witness :
  let evs :=
    [UploadSettles (FetchResolves (mkResponse 200 "OK" ""
                      (inr (JObj [("status", JStr "queued")])))) Normal;
     UploadTimerFires; DeadlineFires; Socket OnOpen 0] in
  snd (run "wss://host" evs processVideo) = None.
Proof.
  intros evs.
  assert (H : existsb accepted evs = false) by (vm_compute; reflexivity).
  exact (proj1 (no_channel_without_accepted_upload "wss://host" evs H)).
Defined.

(** X16: [processVideo] never runs the cleanup function of its channel,
    although its [catch] block mentions it: in every run, every [close]
    made on the socket is the channel's own [close(1000, 'Processing
    complete')] after a terminal frame; and [wsCleanup] is set exactly when
    the channel exists. *)
Theorem processVideo_never_calls_cleanup
    (url : string) (evs : list event) (ch : ChannelSession) :
  snd (run url evs processVideo) = Some ch ->
  wsCleanup (fst (run url evs processVideo)) = true /\
  forall code reason,
    In (Close code reason) (actions ch) ->
    code = 1000 /\ reason = "Processing complete".
Proof.
  intros Hch. destruct (run_Inv2 url evs) as (_ & _ & H3 & H4). split.
  - apply H3. rewrite Hch. discriminate.
  - intros code reason Hin.
    pose proof (H4 ch Hch) as Hf. rewrite Forall_forall in Hf.
    exact (Hf _ Hin).
Qed.

(** Instance of X16: a run that ends with a 'done' frame. *)
Lemma processVideo_never_calls_cleanup_witness :
  wsCleanup (fst (run "wss://host"
     (firstn 3 deadline_trace
        ++ [Socket (OnMessage (inr (JObj [("status", JStr "done")]))) 0])%list
     processVideo))
  = true.
Proof.
  refine (proj1 (processVideo_never_calls_cleanup "wss://host" _
     (mkSession "wss://host/ws/v1" (Some O) true 0 2 []
        [NewWebSocket "wss://host/ws/v1"; StatusUpdate processing_frame;
         StatusUpdate (JObj [("status", JStr "done")]);
         Close 1000 "Processing complete"]) _)).
  vm_compute. reflexivity.
Defined.

Lemma snoc_eq_split {A : Type} (l before after : list A) (c x : A) :
  (l ++ [c])%list = (before ++ x :: after)%list ->
  (after = [] /\ l = before /\ c = x) \/
  (exists after', after = (after' ++ [c])%list /\ l = (before ++ x :: after')%list).
Proof.
  destruct after as [|y after'] using rev_ind; intros H.
  - left. change (before ++ [x])%list with (before ++ [x])%list in H.
    apply app_inj_tail in H. destruct H as [H1 H2]. auto.
  - right. clear IHafter'.
    change (x :: after' ++ [y])%list with ((x :: after') ++ [y])%list in H.
    rewrite app_assoc in H. apply app_inj_tail in H. destruct H as [H1 H2].
    subst. exists after'. auto.
Qed.

Lemma Announced_resolve (l : list call) :
  Announced l ->
  forall before v after,
    l = (before ++ Resolve v :: after)%list ->
    exists b, before = (b ++ [Progress 100; StatusText "Analysis complete!"])%list.
Proof.
  induction 1 as [| l c Hc Hl IH | l v0 Hl IH]; intros before v after E.
  - destruct before; discriminate E.
  - apply snoc_eq_split in E. destruct E as [(_ & _ & E) | (a1 & _ & E)].
    + exfalso. exact (Hc v E).
    + exact (IH _ _ _ E).
  - replace (l ++ [Progress 100; StatusText "Analysis complete!"; Resolve v0])%list
      with (((l ++ [Progress 100]) ++ [StatusText "Analysis complete!"])
              ++ [Resolve v0])%list in E
      by (rewrite <- !app_assoc; reflexivity).
    apply snoc_eq_split in E. destruct E as [(_ & E & _) | (a1 & _ & E)].
    + exists l. rewrite <- E, <- app_assoc. reflexivity.
    + apply snoc_eq_split in E. destruct E as [(_ & _ & E) | (a2 & _ & E)];
        [discriminate E|].
      apply snoc_eq_split in E. destruct E as [(_ & _ & E) | (a3 & _ & E)];
        [discriminate E|].
      exact (IH _ _ _ E).
Qed.

Lemma Announced_run (url : string) (evs : list event) :
  Announced (calls (fst (run url evs processVideo))).
Proof.
  assert (Hreject : forall m l, Announced l -> Announced (l ++ [Reject m])%list).
  { intros m l Hl. apply Announced_other; [discriminate | exact Hl]. }
  assert (Hstatus : forall s l, Announced l -> Announced (l ++ [StatusText s])%list).
  { intros s l Hl. apply Announced_other; [discriminate | exact Hl]. }
  assert (Hprogress : forall p l, Announced l -> Announced (l ++ [Progress p])%list).
  { intros p l Hl. apply Announced_other; [discriminate | exact Hl]. }
  apply (run_preserves (fun w => Announced (calls w))).
  - intros s w H. apply Hstatus, H.
  - intros p w H. apply Hprogress, H.
  - intros b w H. exact H.
  - intros t w H. exact H.
  - intros b w H. exact H.
  - intros m [t u sch a c p l] H. unfold_ops. simpl in *.
    destruct t, p; simpl; apply Hreject, H.
  - intros v [t u sch a c p l] _ H. unfold_ops. simpl in *.
    destruct t, p; simpl; rewrite <- !app_assoc; apply Announced_done, H.
  - intros m s [t u sch a c p l] H. unfold_ops. simpl in *.
    destruct t, p; simpl; apply Hreject, Hstatus, Hprogress, H.
  - intros m [t u sch a c p l] _ H. unfold_ops. simpl in *.
    destruct p; simpl; apply Hreject, H.
  - simpl. apply (Hprogress _ [StatusText "Uploading video..."]).
    apply (Hstatus _ []). constructor.
Qed.

(** X17: in every run of [processVideo], each call of [resolve] directly
    follows the calls [onProgress(100)] and [onStatusUpdate('Analysis
    complete!')]: a workflow never resolves without having reported the
    progress 100 just before. *)
Theorem resolve_follows_progress_100
    (url : string) (evs : list event) (before after : list call) (v : jsonValue) :
  calls (fst (run url evs processVideo)) = (before ++ Resolve v :: after)%list ->
  exists b, before = (b ++ [Progress 100; StatusText "Analysis complete!"])%list.
Proof.
  intros E. exact (Announced_resolve _ (Announced_run url evs) _ _ _ E).
Qed.

(** Instance of X17: a run that ends with a 'done' frame. *)
Lemma resolve_follows_progress_100_witness :
  let evs := (firstn 2 deadline_trace
                ++ [Socket (OnMessage (inr (JObj [("status", JStr "done")]))) 0])%list in
  exists b,
    firstn 6 (calls (fst (run "wss://host" evs processVideo)))
    = (b ++ [Progress 100; StatusText "Analysis complete!"])%list.
Proof.
  intros evs.
  apply (resolve_follows_progress_100 "wss://host" evs
           (firstn 6 (calls (fst (run "wss://host" evs processVideo))))
           (skipn 7 (calls (fst (run "wss://host" evs processVideo))))
           (JObj [("status", JStr "done")])).
  vm_compute. reflexivity.
Defined.

(** X18: a result of the server that is neither a recognised gesture nor
    an error (a truthy [result] whose status is not 'error' and that has
    no class name under status 'completed') makes [App.processVideo] show
    "No gesture recognized", and [ResultSlide] presents that text as a
    success, with the subtitle of a recognised gesture. *)
Theorem unrecognised_result_is_shown_as_success (finalResult : jsonValue) (r : jsval) :
  get finalResult "result" = Some r ->
  truthy r = true ->
  is_string (optional_get r "status") "error" = false ->
  is_string (optional_get r "status") "completed" = false \/
  truthy (optional_get (optional_get r "prediction") "class_name") = false ->
  App.handleResult finalResult = Fulfilled (JStr "No gesture recognized") /\
  ResultSlide.isError (JStr "No gesture recognized") = Some false /\
  ResultSlide.isSuccess (JStr "No gesture recognized") = Some true /\
  ResultSlide.subtitle (JStr "No gesture recognized")
  = Some "The gesture has been recognized successfully.".
Proof.
  intros Hr Ht He Hc. split; [|repeat split; vm_compute; reflexivity].
  unfold App.handleResult. rewrite Hr, Ht, He.
  destruct Hc as [Hc | Hc]; rewrite Hc; [reflexivity|].
  rewrite andb_false_r. reflexivity.
Qed.

(** Instance of X18: a 'done' frame whose result is completed without a
    prediction. *)
Lemma unrecognised_result_is_shown_as_success_witness :
  App.handleResult
    (JObj [("status", JStr "done");
           ("result", JObj [("id", JStr "v1"); ("status", JStr "completed")])])
  = Fulfilled (JStr "No gesture recognized").
Proof.
  exact (proj1 (unrecognised_result_is_shown_as_success
     (JObj [("status", JStr "done");
            ("result", JObj [("id", JStr "v1"); ("status", JStr "completed")])])
     (Value (JObj [("id", JStr "v1"); ("status", JStr "completed")]))
     eq_refl eq_refl eq_refl (or_intror eq_refl))).
Defined.

(** ** Status texts and rejections *)

Lemma skipn_app_length {A : Type} (l d : list A) :
  skipn (List.length l) (l ++ d)%list = d.
Proof. induction l as [|x l IH]; simpl; [reflexivity | exact IH]. Qed.

Lemma added_eq (url : string) (e : event) (st : State) (delta : list call) :
  calls (fst (step url e st)) = (calls (fst st) ++ delta)%list ->
  added url e st = delta.
Proof. intros H. unfold added. rewrite H. apply skipn_app_length. Qed.

Lemma catch_block_calls (m : string) (st : State) :
  calls (fst (catch_block m st)) = (calls (fst st) ++ [Reject m])%list.
Proof.
  destruct st as [[t u sch a c p l] o]. unfold catch_block. unfold_ops. simpl.
  destruct t, p; reflexivity.
Qed.

Lemma errorCallback_calls (m : string) (w : Workflow) :
  calls (errorCallback m w) = (calls w ++ [Reject m])%list.
Proof.
  destruct w as [t u sch a c p l]. unfold errorCallback. unfold_ops. simpl.
  destruct t, p; reflexivity.
Qed.

Lemma server_failure_calls (m s : string) (w : Workflow) :
  calls (reject m (onStatusUpdate s (onProgress 100 (clearTimeout w))))
  = (calls w ++ [Progress 100; StatusText s; Reject m])%list.
Proof.
  destruct w as [t u sch a c p l]. unfold_ops. simpl.
  destruct t, p; simpl; rewrite <- !app_assoc; reflexivity.
Qed.

Lemma frame_calls (url : string) (rnd : Q) (w : Workflow) (ch : ChannelSession)
    (socket : nat) (data : jsonValue) (s : string) :
  ws ch = Some socket ->
  get data "status" = Some (Value (JStr s)) ->
  fst (step url (Socket (OnMessage (inr data)) rnd) (w, Some ch))
  = fst (statusCallback rnd data w).
Proof.
  intros Hws Hget. unfold step, handle, onmessage. cbn [fst snd].
  rewrite Hws.
  destruct (statusCallback rnd data w) as [w' k] eqn:E. cbn [fst].
  assert (Hk : k = Normal).
  { unfold statusCallback in E. rewrite Hget in E.
    repeat match type of E with
           | (if ?b then _ else _) = _ => destruct b
           end; inversion E; reflexivity. }
  subst k. rewrite Hget. destruct (terminal (Value (JStr s))); [|reflexivity].
  cbn [ws act set_messageCount]. rewrite Hws. reflexivity.
Qed.

(** C8 (as amended): in every run of [processVideo], every call of
    [reject] comes after a status text, at the least the initial
    'Uploading video...'. A server frame of status 'timeout' or 'error'
    delivers a text of its own ('Processing timeout', 'Processing failed')
    directly before rejecting. The other failure paths add nothing but
    the call of [reject]: the error callback of the channel (socket error,
    reconnection exhausted), the overall timer, a failed or refused
    upload, and the upload timer. *)
Theorem rejection_paths_and_status_text (url : string) (evs : list event) :
  let st := run url evs processVideo in
  (forall before m after,
     calls (fst st) = (before ++ Reject m :: after)%list ->
     exists s, In (StatusText s) before) /\
  (forall ch socket rnd,
     snd st = Some ch -> ws ch = Some socket ->
     (forall data, get data "status" = Some (Value (JStr "timeout")) ->
        added url (Socket (OnMessage (inr data)) rnd) st
        = [Progress 100; StatusText "Processing timeout";
           Reject "Server processing timed out"]) /\
     (forall data, get data "status" = Some (Value (JStr "error")) ->
        added url (Socket (OnMessage (inr data)) rnd) st
        = [Progress 100; StatusText "Processing failed";
           Reject "Server processing error"]) /\
     added url (Socket OnError rnd) st = [Reject "WebSocket connection error"] /\
     (forall code, code <> 1000 -> 3 <= reconnectAttempts ch ->
        added url (Socket (OnClose code) rnd) st
        = [Reject "WebSocket connection failed after multiple attempts"])) /\
  (timeoutId (fst st) = Pending ->
     added url DeadlineFires st = [Reject "Overall processing timeout (3 minutes)"]) /\
  (awaiting (fst st) = true ->
     (forall f k m, uploadVideo f = Rejected m ->
        added url (UploadSettles f k) st = [Reject m]) /\
     (forall f k v s, uploadVideo f = Fulfilled v ->
        get v "status" = Some s -> is_string s "received" = false ->
        added url (UploadSettles f k) st
        = [Reject (match template s with
                   | Some shown => "Upload failed with status: " ++ shown
                   | None => typeError_primitive
                   end)]) /\
     (uploadTimer (fst st) = Pending ->
        added url UploadTimerFires st = [Reject "Upload timeout after 2 minutes"])).
Proof.
  intros st. split; [|split; [|split]].
  - intros before m after E.
    exact (some_status_text_precedes_rejection url evs before after m E).
  - clearbody st. destruct st as [w o]. cbn [fst snd].
    intros ch socket rnd -> Hws. split; [|split; [|split]].
    + intros data Hget. apply added_eq.
      rewrite (frame_calls url rnd w ch socket data "timeout" Hws Hget).
      unfold statusCallback. rewrite Hget. cbn [is_string String.eqb Ascii.eqb Bool.eqb].
      apply server_failure_calls.
    + intros data Hget. apply added_eq.
      rewrite (frame_calls url rnd w ch socket data "error" Hws Hget).
      unfold statusCallback. rewrite Hget. cbn [is_string String.eqb Ascii.eqb Bool.eqb].
      apply server_failure_calls.
    + apply added_eq. unfold step, handle, onerror, callError. cbn [fst snd].
      rewrite Hws. cbn [fst]. apply errorCallback_calls.
    + intros code Hcode Hn. apply added_eq.
      unfold step, handle, onclose, callError, maxReconnectAttempts. cbn [fst snd].
      rewrite Hws. cbn [reconnectAttempts set_isConnected].
      assert (Hc : negb (code =? 1000) = true)
        by (apply negb_true_iff, Z.eqb_neq, Hcode).
      assert (Hlt : (reconnectAttempts ch <? 3) = false) by (apply Z.ltb_ge, Hn).
      rewrite Hc, Hlt. cbn [andb fst]. apply errorCallback_calls.
  - clearbody st. destruct st as [w o]. cbn [fst snd]. intros Ht.
    apply added_eq. unfold step. cbn [fst snd]. rewrite Ht. cbn [fst].
    destruct w as [t u sch a c p l]. unfold_ops. simpl. destruct p; reflexivity.
  - clearbody st. destruct st as [w o]. cbn [fst snd]. intros Ha.
    assert (Hset : calls (set_awaiting false w) = calls w) by (destruct w; reflexivity).
    split; [|split].
    + intros f k m Hup. apply added_eq. unfold step. cbn [fst snd].
      rewrite Ha, Hup, catch_block_calls. cbn [fst]. rewrite Hset. reflexivity.
    + intros f k v s Hup Hs Hr. apply added_eq. unfold step. cbn [fst snd].
      rewrite Ha, Hup. unfold resume. rewrite Hs, Hr. simpl negb. cbv iota.
      destruct (template s); rewrite catch_block_calls; cbn [fst];
        rewrite Hset; reflexivity.
    + intros Hu. apply added_eq. unfold step. cbn [fst snd]. rewrite Hu.
      assert (Ha' : awaiting (set_uploadTimer Fired w) = true)
        by (destruct w; exact Ha).
      rewrite Ha', catch_block_calls. cbn [fst]. destruct w; reflexivity.
Qed.

(** Instance of C8 (as amended): the overall timer fires while the channel
    is open, and then a 'timeout' frame arrives. *)
Lemma rejection_paths_and_status_text_witness :
  let st := run "wss://host" (firstn 3 deadline_trace) processVideo in
  added "wss://host" DeadlineFires st = [Reject "Overall processing timeout (3 minutes)"] /\
  added "wss://host" (Socket (OnMessage (inr (JObj [("status", JStr "timeout")]))) 0) st
  = [Progress 100; StatusText "Processing timeout"; Reject "Server processing timed out"].
Proof.
  intros st.
  destruct (rejection_paths_and_status_text "wss://host" (firstn 3 deadline_trace))
    as (_ & Hframe & Hdeadline & _).
  fold st in Hframe, Hdeadline. split.
  - apply Hdeadline. vm_compute. reflexivity.
  - assert (Hch : snd st
                  = Some (mkSession "wss://host/ws/v1" (Some O) true 0 1 []
                            [NewWebSocket "wss://host/ws/v1";
                             StatusUpdate processing_frame]))
      by (vm_compute; reflexivity).
    exact (proj1 (Hframe _ O 0%Q Hch eq_refl)
                 (JObj [("status", JStr "timeout")]) eq_refl).
Defined.

(** C8 (as stated) fails: when the overall timer fires, and when the
    upload fails, the handler calls [reject] without delivering any
    status text. *)
Lemma status_text_counterexample :
  let st := run "wss://host" (firstn 3 deadline_trace) processVideo in
  added "wss://host" DeadlineFires st
  = [Reject "Overall processing timeout (3 minutes)"] /\
  ~ announcesRejection (added "wss://host" DeadlineFires st) /\
  ~ announcesRejection
      (added "wss://host" (UploadSettles (FetchRejects "Network request failed") Normal)
             processVideo).
Proof.
  intros st.
  assert (E1 : added "wss://host" DeadlineFires st
               = [Reject "Overall processing timeout (3 minutes)"])
    by (vm_compute; reflexivity).
  assert (E2 : added "wss://host"
                 (UploadSettles (FetchRejects "Network request failed") Normal)
                 processVideo
               = [Reject "Cannot connect to server. Please check your internet connection and server address."])
    by (vm_compute; reflexivity).
  split; [exact E1|]. split.
  - rewrite E1. intros H. destruct (H [] _ [] eq_refl) as [s []].
  - rewrite E2. intros H. destruct (H [] _ [] eq_refl) as [s []].
Qed.
